(** * Session store and auto-refresh provider of www.minsol.kr

    A shallow embedding of [store/auth.store.ts] (the zustand store that
    holds the access token, the user and the authentication flag) and of
    [store/auth-provider.tsx] (the React component that validates the token
    when the session becomes authenticated and every 50 minutes after).

    The store's actions are written in a small state-and-exception monad
    over a [World]: the store itself, the log of network exchanges, the
    devtools action log and the error console.  The network is an oracle
    [Net] that answers the n-th request; every theorem quantifies over it.

    The store is built with the persist middleware, which writes the
    session to [localStorage] at every [set].  [AuthStore] is the store
    while these writes succeed; [PersistedStore] runs the same actions
    over a storage that may throw, and [PersistedStoreFacts] shows the
    two agree when it does not. *)

From Stdlib Require Import String ZArith List Bool Lia.
From stdpp Require Import base option gmap.
From Stdlib Require DecimalString.
Import ListNotations.

Local Open Scope string_scope.
Local Open Scope Z_scope.

(** ** JavaScript values the store depends on *)

Module Js.

(** [!!s] for a string: only the empty string is falsy. *)
Definition truthy (s : string) : bool :=
  match s with
  | EmptyString => false
  | String _ _ => true
  end.

(** [!!v] for a [string | null]. *)
Definition truthy_opt (v : option string) : bool :=
  match v with
  | None => false
  | Some s => truthy s
  end.

(** [`${v}`] for a [string | null]. *)
Definition template (v : option string) : string :=
  match v with
  | None => "null"
  | Some s => s
  end.

(** What a [catch (error)] clause can receive: an [Error] instance with
    its [message], or any other thrown value. *)
Inductive Thrown : Type :=
| ErrorInstance (message : string)
| OtherValue.

(** [error instanceof Error ? error.message : fallback] *)
Definition message_or (error : Thrown) (fallback : string) : string :=
  match error with
  | ErrorInstance m => m
  | OtherValue => fallback
  end.

End Js.

(** ** HTTP as seen through [fetch] *)

Module Http.
Import Js.

Record Request : Type := mkRequest {
  url : string;
  method : string;
  credentials : string;
  headers : list (string * string)
}.

(** The result of [await response.json()], as far as the store looks at
    it: the promise rejects, or the body is [null] (reading a property of
    it throws), or it is a value whose [accessToken] property is absent
    or a string, as the store's types declare the token. *)
Inductive Data : Type :=
| JsonNull
| JsonObject (accessToken : option string).

Inductive Body : Type :=
| JsonRejects (error : Thrown)
| JsonValue (data : Data).

Record Response : Type := mkResponse {
  status : Z;
  body : Body
}.

(** [response.ok]: the status is in the range 200-299. *)
Definition ok (r : Response) : bool :=
  (200 <=? status r) && (status r <=? 299).

(** A [fetch] promise rejects (network failure) or resolves. *)
Inductive FetchOutcome : Type :=
| Rejected (error : Thrown)
| Resolved (response : Response).

(** The remote side: what the n-th request of the page is answered. *)
Definition Net : Type := nat -> Request -> FetchOutcome.

(** The [TypeError] of [data.accessToken] on a [null] body. *)
Definition null_property_error : Thrown :=
  ErrorInstance "Cannot read properties of null (reading 'accessToken')".

End Http.

(** ** The store: state, partial updates, world *)

Module AuthStore.
Import Js Http.

Inductive Provider : Type := google | kakao | naver.

Record User : Type := mkUser {
  id : string;
  email : option string;
  nickname : option string;
  profileImage : option string;
  provider : Provider
}.

Record AuthState : Type := mkAuthState {
  accessToken : option string;
  user : option User;
  isAuthenticated : bool;
  isLoading : bool;
  error : option string
}.

Definition initialState : AuthState :=
  {| accessToken := None;
     user := None;
     isAuthenticated := false;
     isLoading := false;
     error := None |}.

(** One [key: value] entry of the object literal passed to [set]. *)
Inductive Field : Type :=
| AccessToken (v : option string)
| TheUser (v : option User)
| IsAuthenticated (v : bool)
| IsLoading (v : bool)
| Error (v : option string).

Definition assign (s : AuthState) (f : Field) : AuthState :=
  match f with
  | AccessToken v =>
      mkAuthState v (user s) (isAuthenticated s) (isLoading s) (error s)
  | TheUser v =>
      mkAuthState (accessToken s) v (isAuthenticated s) (isLoading s) (error s)
  | IsAuthenticated v =>
      mkAuthState (accessToken s) (user s) v (isLoading s) (error s)
  | IsLoading v =>
      mkAuthState (accessToken s) (user s) (isAuthenticated s) v (error s)
  | Error v =>
      mkAuthState (accessToken s) (user s) (isAuthenticated s) (isLoading s) v
  end.

(** zustand's [set(partial, false, ...)]: the partial object is merged
    into the state, the keys it does not mention keep their values. *)
Definition merge (s : AuthState) (partial : list Field) : AuthState :=
  fold_left assign partial s.

(** [{ ...s }] *)
Definition spread (s : AuthState) : list Field :=
  [ AccessToken (accessToken s);
    TheUser (user s);
    IsAuthenticated (isAuthenticated s);
    IsLoading (isLoading s);
    Error (error s) ].

Record World : Type := mkWorld {
  store : AuthState;
  (** requests sent so far, each with what came back, oldest first *)
  exchanges : list (Request * FetchOutcome);
  (** action names handed to the devtools middleware, oldest first *)
  actions : list string;
  (** [console.error] lines *)
  console : list (string * Thrown)
}.

Definition fresh : World :=
  {| store := initialState; exchanges := []; actions := []; console := [] |}.

(** *** The monad *)

Inductive Outcome (A : Type) : Type :=
| Returned (a : A)
| Threw (error : Thrown).
Arguments Returned {A} a.
Arguments Threw {A} error.

Definition M (A : Type) : Type := World -> Outcome A * World.

Definition ret {A} (a : A) : M A := fun w => (Returned a, w).

Definition bind {A B} (m : M A) (k : A -> M B) : M B :=
  fun w =>
    match m w with
    | (Returned a, w') => k a w'
    | (Threw e, w') => (Threw e, w')
    end.

Definition throw {A} (e : Thrown) : M A := fun w => (Threw e, w).

Definition try_catch {A} (body : M A) (handler : Thrown -> M A) : M A :=
  fun w =>
    match body w with
    | (Returned a, w') => (Returned a, w')
    | (Threw e, w') => handler e w'
    end.

Definition get : M AuthState := fun w => (Returned (store w), w).

(** zustand's [set(partial, false, action)] under devtools: the partial
    is merged into the state and the action is named to devtools. The
    write to the storage that persist makes after it is the [setItem] of
    [PersistedStore]; here it is taken to succeed. *)
Definition set_ (partial : list Field) (action : string) : M unit :=
  fun w =>
    (Returned tt,
     {| store := merge (store w) partial;
        exchanges := exchanges w;
        actions := actions w ++ [action];
        console := console w |}).

Definition console_error (line : string) (e : Thrown) : M unit :=
  fun w =>
    (Returned tt,
     {| store := store w;
        exchanges := exchanges w;
        actions := actions w;
        console := console w ++ [(line, e)] |}).

Definition run {A} (m : M A) (w : World) : Outcome A * World := m w.
Definition result {A} (m : M A) (w : World) : Outcome A := fst (m w).
Definition exec {A} (m : M A) (w : World) : World := snd (m w).

Declare Scope action_scope.
Delimit Scope action_scope with action.
Bind Scope action_scope with M.
Notation "x <- m ;; k" := (bind m (fun x => k))
  (at level 100, m at next level, right associativity) : action_scope.
Notation "m ;; k" := (bind m (fun _ => k))
  (at level 100, right associativity) : action_scope.
Local Open Scope action_scope.

Section Actions.

Variable net : Net.

(** *** Network primitives *)

Definition log_exchange (req : Request) (out : FetchOutcome) (w : World) : World :=
  {| store := store w;
     exchanges := exchanges w ++ [(req, out)];
     actions := actions w;
     console := console w |}.

(** [await fetch(url, init)] *)
Definition fetch (req : Request) : M Response :=
  fun w =>
    let out := net (length (exchanges w)) req in
    match out with
    | Rejected e => (Threw e, log_exchange req out w)
    | Resolved r => (Returned r, log_exchange req out w)
    end.

(** [fetch(url, init).catch(handler)], not awaited: the caller goes on
    whatever the request does, a rejection only reaches [handler]. *)
Definition fetch_catch (req : Request) (handler : Thrown -> M unit) : M unit :=
  fun w =>
    let out := net (length (exchanges w)) req in
    match out with
    | Rejected e => (Returned tt, snd (handler e (log_exchange req out w)))
    | Resolved _ => (Returned tt, log_exchange req out w)
    end.

(** [await response.json()] *)
Definition json (r : Response) : M Data :=
  match body r with
  | JsonRejects e => throw e
  | JsonValue d => ret d
  end.

(** [data.accessToken] *)
Definition read_accessToken (data : Data) : M (option string) :=
  match data with
  | JsonNull => throw null_property_error
  | JsonObject t => ret t
  end.

(** *** Sync actions *)

Definition setAccessToken (token : string) : M unit :=
  set_ [ AccessToken (Some token);
         IsAuthenticated (truthy token);
         Error None ]
       "auth/setAccessToken".

Definition setUser (user : User) : M unit :=
  set_ [ TheUser (Some user);
         Error None ]
       "auth/setUser".

Definition login (accessToken : string) (user : User) : M unit :=
  set_ [ AccessToken (Some accessToken);
         TheUser (Some user);
         IsAuthenticated true;
         IsLoading false;
         Error None ]
       "auth/login".

Definition logout_request : Request :=
  {| url := "/api/auth/logout";
     method := "POST";
     credentials := "include";
     headers := [] |}.

Definition logout : M unit :=
  fetch_catch logout_request
    (fun error => console_error "[Auth Store] 로그아웃 요청 실패:" error) ;;
  set_ (spread initialState) "auth/logout".

Definition clearError : M unit :=
  set_ [ Error None ] "auth/clearError".

Definition setError (error : string) : M unit :=
  set_ [ Error (Some error);
         IsLoading false ]
       "auth/setError".

Definition setLoading (isLoading : bool) : M unit :=
  set_ [ IsLoading isLoading ] "auth/setLoading".

(** *** Async actions *)

Definition refresh_request : Request :=
  {| url := "/api/auth/refresh";
     method := "POST";
     credentials := "include";
     headers := [] |}.

Definition refreshAccessToken : M bool :=
  try_catch
    (set_ [ IsLoading true; Error None ] "auth/refreshAccessToken/pending" ;;
     response <- fetch refresh_request ;;
     if negb (ok response) then
       throw (ErrorInstance "토큰 갱신 실패")
     else
       data <- json response ;;
       token <- read_accessToken data ;;
       if truthy_opt token then
         set_ [ AccessToken token;
                IsAuthenticated true;
                IsLoading false;
                Error None ]
              "auth/refreshAccessToken/fulfilled" ;;
         ret true
       else
         throw (ErrorInstance "Access Token이 응답에 없습니다"))
    (fun error =>
       let errorMessage := message_or error "토큰 갱신 실패" in
       set_ [ AccessToken None;
              IsAuthenticated false;
              IsLoading false;
              Error (Some errorMessage) ]
            "auth/refreshAccessToken/rejected" ;;
       ret false).

Definition validate_request (accessToken : option string) : Request :=
  {| url := "/api/auth/validate";
     method := "POST";
     credentials := "include";
     headers := [ ("Content-Type", "application/json");
                  ("Authorization", "Bearer " ++ template accessToken) ] |}.

Definition validateToken : M bool :=
  state <- get ;;
  let accessToken := accessToken state in
  if negb (truthy_opt accessToken) then
    refreshAccessToken
  else
    try_catch
      (set_ [ IsLoading true ] "auth/validateToken/pending" ;;
       response <- fetch (validate_request accessToken) ;;
       if ok response then
         set_ [ IsLoading false ] "auth/validateToken/fulfilled" ;;
         ret true
       else if status response =? 401 then
         refreshAccessToken
       else
         throw (ErrorInstance "토큰 검증 실패"))
      (fun error =>
         let errorMessage := message_or error "토큰 검증 실패" in
         set_ [ IsLoading false;
                Error (Some errorMessage) ]
              "auth/validateToken/rejected" ;;
         refreshAccessToken).

End Actions.

(** *** Selectors *)

Definition selectIsAuthenticated (state : AuthState) : bool := isAuthenticated state.
Definition selectUser (state : AuthState) : option User := user state.
Definition selectAccessToken (state : AuthState) : option string := accessToken state.
Definition selectIsLoading (state : AuthState) : bool := isLoading state.
Definition selectError (state : AuthState) : option string := error state.

End AuthStore.

(** ** The provider: effects, timers, renders *)

Module AuthProvider.
Import AuthStore.

(** Where a call of [validateToken()] comes from: the first effect, run
    when the session is (or becomes) authenticated, or the interval. *)
Inductive Origin : Type := FromEffect | FromInterval.

(** The function handed to [setInterval]: [() => { validateToken(); }]. *)
Inductive Callback : Type := CallValidateToken.

Record Timer : Type := mkTimer {
  callback : Callback;
  delay : Z
}.

(** The page: the browser's table of live intervals, the next interval id
    it hands out, and the calls of [validateToken()] made so far. *)
Record Page : Type := mkPage {
  timers : gmap nat Timer;
  next_id : nat;
  validations : list Origin
}.

Definition setInterval (cb : Callback) (ms : Z) (p : Page) : nat * Page :=
  (next_id p,
   {| timers := <[next_id p := mkTimer cb ms]> (timers p);
      next_id := S (next_id p);
      validations := validations p |}).

Definition clearInterval (interval : nat) (p : Page) : Page :=
  {| timers := delete interval (timers p);
     next_id := next_id p;
     validations := validations p |}.

Definition call_validateToken (from : Origin) (p : Page) : Page :=
  {| timers := timers p;
     next_id := next_id p;
     validations := validations p ++ [from] |}.

(** What an effect returns for React to run later:
    [() => clearInterval(interval)], or nothing. *)
Inductive Cleanup : Type := ClearInterval (interval : nat).

Definition run_cleanup (c : option Cleanup) (p : Page) : Page :=
  match c with
  | Some (ClearInterval interval) => clearInterval interval p
  | None => p
  end.

Definition Effect : Type := bool -> Page -> option Cleanup * Page.

(** First [useEffect]: validate when the session is authenticated. *)
Definition effect_validate : Effect :=
  fun isAuthenticated p =>
    if isAuthenticated then (None, call_validateToken FromEffect p)
    else (None, p).

(** Second [useEffect]: the 50-minute interval. *)
Definition effect_interval : Effect :=
  fun isAuthenticated p =>
    if negb isAuthenticated then (None, p)
    else
      let '(interval, p') := setInterval CallValidateToken (50 * 60 * 1000) p in
      (Some (ClearInterval interval), p').

Definition effects : list Effect := [effect_validate; effect_interval].

(** A mounted [AuthProvider]: the [isAuthenticated] of its last render
    (the dependency of both effects that can change; [validateToken] is
    the same function for the life of the store) and the cleanup each
    effect returned. *)
Record Mounted : Type := mkMounted {
  deps : bool;
  cleanups : list (option Cleanup)
}.

Fixpoint run_effects (es : list Effect) (isAuthenticated : bool) (p : Page)
  : list (option Cleanup) * Page :=
  match es with
  | [] => ([], p)
  | e :: es' =>
      let '(c, p1) := e isAuthenticated p in
      let '(cs, p2) := run_effects es' isAuthenticated p1 in
      (c :: cs, p2)
  end.

Definition run_cleanups (cs : list (option Cleanup)) (p : Page) : Page :=
  fold_left (fun q c => run_cleanup c q) cs p.

Record App : Type := mkApp {
  page : Page;
  instance : option Mounted
}.

Definition boot : App :=
  {| page := {| timers := ∅; next_id := 0%nat; validations := [] |};
     instance := None |}.

(** React commits a render of the provider with the store in state [s]
    (the first one mounts it), React unmounts it, or the browser lets the
    interval [id] elapse. *)
Inductive Event : Type :=
| Render (s : AuthState)
| Unmount
| Elapse (id : nat).

(** React's rule for [useEffect(f, deps)]: on mount every effect runs; on
    a later render whose [deps] differ, the cleanups of the last run are
    called, then the effects run again; on unmount the cleanups are
    called.  An interval fires only while it is in the table. *)
Definition step (a : App) (e : Event) : App :=
  match e with
  | Render s =>
      let isAuthenticated := selectIsAuthenticated s in
      match instance a with
      | None =>
          let '(cs, p) := run_effects effects isAuthenticated (page a) in
          {| page := p; instance := Some (mkMounted isAuthenticated cs) |}
      | Some m =>
          if Bool.eqb (deps m) isAuthenticated then a
          else
            let '(cs, p) :=
              run_effects effects isAuthenticated (run_cleanups (cleanups m) (page a)) in
            {| page := p; instance := Some (mkMounted isAuthenticated cs) |}
      end
  | Unmount =>
      match instance a with
      | None => a
      | Some m => {| page := run_cleanups (cleanups m) (page a); instance := None |}
      end
  | Elapse id =>
      match timers (page a) !! id with
      | Some (mkTimer CallValidateToken _) =>
          {| page := call_validateToken FromInterval (page a); instance := instance a |}
      | None => a
      end
  end.

Definition run (evs : list Event) (a : App) : App := fold_left step evs a.

(** The interval is meant to be live: the provider is mounted and its
    last render saw [isAuthenticated = true]. *)
Definition scheduler_on (a : App) : bool :=
  match instance a with
  | Some m => deps m
  | None => false
  end.

(** Events that end the authenticated session of the provider. *)
Definition stops (e : Event) : bool :=
  match e with
  | Render s => negb (isAuthenticated s)
  | Unmount => true
  | Elapse _ => false
  end.

(** Events that do not render the provider as authenticated. *)
Definition idle (e : Event) : bool :=
  match e with
  | Render s => negb (isAuthenticated s)
  | Unmount | Elapse _ => true
  end.

Definition from_interval (o : Origin) : bool :=
  match o with
  | FromInterval => true
  | FromEffect => false
  end.

(** The calls of [validateToken()] that the interval made. *)
Definition scheduled_calls (p : Page) : list Origin :=
  List.filter from_interval (validations p).

End AuthProvider.

(** * Vocabulary of the properties

    The closed forms the two async actions are shown equal to, the
    predicates the theorems use, and sample sessions and networks. *)

Module AuthStoreSpec.
Import Js Http AuthStore.

(** What a reply to the refresh request amounts to: the new token, or
    the message the [catch] block records. *)
Definition refresh_reply (out : FetchOutcome) : string + string :=
  match out with
  | Rejected e => inr (message_or e "토큰 갱신 실패")
  | Resolved r =>
      if ok r then
        match body r with
        | JsonRejects e => inr (message_or e "토큰 갱신 실패")
        | JsonValue JsonNull => inr (message_or null_property_error "토큰 갱신 실패")
        | JsonValue (JsonObject (Some t)) =>
            if truthy t then inl t else inr "Access Token이 응답에 없습니다"
        | JsonValue (JsonObject None) => inr "Access Token이 응답에 없습니다"
        end
      else inr "토큰 갱신 실패"
  end.

(** The world a finished [refreshAccessToken()] leaves, by its reply. *)
Definition refreshed (w : World) (out : FetchOutcome) : Outcome bool * World :=
  match refresh_reply out with
  | inl t =>
      (Returned true,
       {| store := {| accessToken := Some t;
                      user := user (store w);
                      isAuthenticated := true;
                      isLoading := false;
                      error := None |};
          exchanges := exchanges w ++ [(refresh_request, out)];
          actions := actions w ++ ["auth/refreshAccessToken/pending";
                                   "auth/refreshAccessToken/fulfilled"];
          console := console w |})
  | inr msg =>
      (Returned false,
       {| store := {| accessToken := None;
                      user := user (store w);
                      isAuthenticated := false;
                      isLoading := false;
                      error := Some msg |};
          exchanges := exchanges w ++ [(refresh_request, out)];
          actions := actions w ++ ["auth/refreshAccessToken/pending";
                                   "auth/refreshAccessToken/rejected"];
          console := console w |})
  end.

(** The three worlds [validateToken()] goes through when it does ask the
    validate endpoint. *)
Definition validating (w : World) (out : FetchOutcome) : World :=
  {| store := assign (store w) (IsLoading true);
     exchanges := exchanges w ++ [(validate_request (accessToken (store w)), out)];
     actions := actions w ++ ["auth/validateToken/pending"];
     console := console w |}.

Definition validation_fulfilled (w : World) : World :=
  {| store := assign (store w) (IsLoading false);
     exchanges := exchanges w;
     actions := actions w ++ ["auth/validateToken/fulfilled"];
     console := console w |}.

Definition validation_rejected (w : World) (msg : string) : World :=
  {| store := assign (assign (store w) (IsLoading false)) (Error (Some msg));
     exchanges := exchanges w;
     actions := actions w ++ ["auth/validateToken/rejected"];
     console := console w |}.

(** Sample data. *)
Definition sample_user : User :=
  {| id := "u-1"; email := Some "minsol@example.com"; nickname := None;
     profileImage := None; provider := kakao |}.

(** No request gets through. *)
Definition net_down : Net :=
  fun _ _ => Rejected (ErrorInstance "Failed to fetch").

(** The validate endpoint answers 401, the refresh endpoint a new token. *)
Definition net_expired : Net :=
  fun _ req =>
    if String.eqb (url req) "/api/auth/validate" then
      Resolved {| status := 401; body := JsonValue JsonNull |}
    else
      Resolved {| status := 200; body := JsonValue (JsonObject (Some "xyz")) |}.

(** Every endpoint answers 200 with an empty object. *)
Definition net_ok_empty : Net :=
  fun _ _ => Resolved {| status := 200; body := JsonValue (JsonObject None) |}.

Definition signed_in : World := exec (login "abc" sample_user) fresh.

(** The failures the refresh request can meet: the request is rejected,
    the response is not a success, or its body has no [accessToken]. *)
Definition refresh_fails (out : FetchOutcome) : bool :=
  match out with
  | Rejected _ => true
  | Resolved r =>
      negb (ok r) ||
      match body r with
      | JsonValue (JsonObject (Some _)) => false
      | _ => true
      end
  end.







(** An exchange with the validate endpoint that ended in a success. *)
Definition validate_success (x : Request * FetchOutcome) : bool :=
  String.eqb (url (fst x)) "/api/auth/validate" &&
  match snd x with
  | Resolved r => ok r
  | Rejected _ => false
  end.

(** The exchanges made between world [w] and the later world [w']. *)
Definition exchanged (w w' : World) : list (Request * FetchOutcome) :=
  skipn (length (exchanges w)) (exchanges w').

(** A session signed in with the empty string as its token. *)
Definition signed_in_empty : World := exec (login "" sample_user) fresh.

(** [isAuthenticated] only with a token in the store. *)
Definition token_held (s : AuthState) : Prop :=
  isAuthenticated s = true -> accessToken s <> None.

(** The operations of the store. *)
Inductive Op : Type :=
| SetAccessToken (token : string)
| SetUser (u : User)
| Login (token : string) (u : User)
| Logout
| ClearError
| SetError (msg : string)
| SetLoading (b : bool)
| RefreshAccessToken
| ValidateToken.

Definition perform (net : Net) (op : Op) (w : World) : World :=
  match op with
  | SetAccessToken token => exec (setAccessToken token) w
  | SetUser u => exec (setUser u) w
  | Login token u => exec (login token u) w
  | Logout => exec (logout net) w
  | ClearError => exec clearError w
  | SetError msg => exec (setError msg) w
  | SetLoading b => exec (setLoading b) w
  | RefreshAccessToken => exec (refreshAccessToken net) w
  | ValidateToken => exec (validateToken net) w
  end.

End AuthStoreSpec.

Module AuthProviderSpec.
Import AuthStore AuthProvider.

(** The one interval the provider ever sets. *)
Definition refresh_timer : Timer := mkTimer CallValidateToken 3000000.

(** What holds of the provider after any sequence of events: unmounted
    or rendered unauthenticated, no interval is live and no cleanup is
    pending; rendered authenticated, exactly one interval is live, the
    50-minute one, and its cleanup is the one React holds. *)
Definition consistent (a : App) : Prop :=
  match instance a with
  | None => timers (page a) = ∅
  | Some m =>
      if deps m then
        exists id,
          cleanups m = [None; Some (ClearInterval id)] /\
          timers (page a) = {[ id := refresh_timer ]}
      else
        cleanups m = [None; None] /\ timers (page a) = ∅
  end.

(** A session: the provider mounts on a signed-in store, the interval
    elapses twice, the user logs out. *)
Definition signed_in_then_out : list Event :=
  [ Render (store AuthStoreSpec.signed_in);
    Elapse 0;
    Elapse 0;
    Render (store (exec (logout AuthStoreSpec.net_down) AuthStoreSpec.signed_in)) ].

End AuthProviderSpec.

(** * The rest of the store: persistence *)

Module AuthPersist.
Import AuthStore.

(** The object the persist middleware writes under ["auth-storage"]. *)
Record Persisted : Type := mkPersisted {
  saved_accessToken : option string;
  saved_user : option User;
  saved_isAuthenticated : bool
}.

(** The [partialize] option of the store. *)
Definition partialize (state : AuthState) : Persisted :=
  {| saved_accessToken := accessToken state;
     saved_user := user state;
     saved_isAuthenticated := isAuthenticated state |}.

(** The store sets no [merge] option, so a stored object is put back the
    way the middleware does by default:
    [{ ...currentState, ...persistedState }]. *)
Definition rehydrate (persisted : Persisted) (current : AuthState) : AuthState :=
  merge current
    [ AccessToken (saved_accessToken persisted);
      TheUser (saved_user persisted);
      IsAuthenticated (saved_isAuthenticated persisted) ].

End AuthPersist.

(** ** The store as [persist] runs it

    The store's config is handed its [set] by the persist middleware:
    [(...args) => { set(...args); return setItem() }], where [setItem]
    writes [partialize({ ...get() })] to [localStorage] under
    ["auth-storage"]. The state is therefore written first, the action
    reaches devtools, and then the storage is written, synchronously; a
    [setItem] that throws (quota exceeded, storage disabled) throws out
    of [set] into the action that called it. [AuthStore] above is the
    store while the storage accepts every write; here the storage is an
    oracle, and the actions are the same config run with persist's
    [set]. *)

Module PersistedStore.
Import Js Http AuthStore AuthPersist.
Local Open Scope action_scope.

(** What [localStorage.setItem] does with the value of the n-th [set] of
    the page: it accepts it, or throws. *)
Definition Storage : Type := nat -> Persisted -> option Thrown.

(** A storage that accepts every write. *)
Definition writable : Storage := fun _ _ => None.

Section Store.

Variable storage : Storage.

(** persist's [setItem()], for the n-th [set]. *)
Definition setItem (n : nat) : M unit :=
  fun w =>
    match storage n (partialize (store w)) with
    | None => (Returned tt, w)
    | Some e => (Threw e, w)
    end.

(** The [set] of the config. *)
Definition set_ (partial : list Field) (action : string) : M unit :=
  fun w => (AuthStore.set_ partial action ;; setItem (length (actions w))) w.

(** *** Sync actions *)

Definition setAccessToken (token : string) : M unit :=
  set_ [ AccessToken (Some token);
         IsAuthenticated (truthy token);
         Error None ]
       "auth/setAccessToken".

Definition setUser (user : User) : M unit :=
  set_ [ TheUser (Some user);
         Error None ]
       "auth/setUser".

Definition login (accessToken : string) (user : User) : M unit :=
  set_ [ AccessToken (Some accessToken);
         TheUser (Some user);
         IsAuthenticated true;
         IsLoading false;
         Error None ]
       "auth/login".

Definition clearError : M unit :=
  set_ [ Error None ] "auth/clearError".

Definition setError (error : string) : M unit :=
  set_ [ Error (Some error);
         IsLoading false ]
       "auth/setError".

Definition setLoading (isLoading : bool) : M unit :=
  set_ [ IsLoading isLoading ] "auth/setLoading".

Section Actions.

Variable net : Net.

Definition logout : M unit :=
  fetch_catch net logout_request
    (fun error => console_error "[Auth Store] 로그아웃 요청 실패:" error) ;;
  set_ (spread initialState) "auth/logout".

(** *** Async actions *)

Definition refreshAccessToken : M bool :=
  try_catch
    (set_ [ IsLoading true; Error None ] "auth/refreshAccessToken/pending" ;;
     response <- fetch net refresh_request ;;
     if negb (ok response) then
       throw (ErrorInstance "토큰 갱신 실패")
     else
       data <- json response ;;
       token <- read_accessToken data ;;
       if truthy_opt token then
         set_ [ AccessToken token;
                IsAuthenticated true;
                IsLoading false;
                Error None ]
              "auth/refreshAccessToken/fulfilled" ;;
         ret true
       else
         throw (ErrorInstance "Access Token이 응답에 없습니다"))
    (fun error =>
       let errorMessage := message_or error "토큰 갱신 실패" in
       set_ [ AccessToken None;
              IsAuthenticated false;
              IsLoading false;
              Error (Some errorMessage) ]
            "auth/refreshAccessToken/rejected" ;;
       ret false).

Definition validateToken : M bool :=
  state <- get ;;
  let accessToken := accessToken state in
  if negb (truthy_opt accessToken) then
    refreshAccessToken
  else
    try_catch
      (set_ [ IsLoading true ] "auth/validateToken/pending" ;;
       response <- fetch net (validate_request accessToken) ;;
       if ok response then
         set_ [ IsLoading false ] "auth/validateToken/fulfilled" ;;
         ret true
       else if status response =? 401 then
         refreshAccessToken
       else
         throw (ErrorInstance "토큰 검증 실패"))
      (fun error =>
         let errorMessage := message_or error "토큰 검증 실패" in
         set_ [ IsLoading false;
                Error (Some errorMessage) ]
              "auth/validateToken/rejected" ;;
         refreshAccessToken).

End Actions.

End Store.

End PersistedStore.

Module PersistedStoreSpec.
Import Js Http AuthStore AuthPersist AuthStoreSpec.

(** What the [catch] block of [refreshAccessToken()] leaves in the
    storage: no token, the user of the store, the flag cleared. *)
Definition cleared (s : AuthState) : Persisted :=
  {| saved_accessToken := None;
     saved_user := user s;
     saved_isAuthenticated := false |}.

(** The storage accepts every write. *)
Definition accepts (storage : PersistedStore.Storage) : Prop :=
  forall n p, storage n p = None.

(** The outcome is a thrown value that the storage threw at some write. *)
Definition thrown_by {A} (storage : PersistedStore.Storage) (r : Outcome A) : Prop :=
  exists e n p, storage n p = Some e /\ r = Threw e.

(** [k] refresh requests in a row, the first being the n-th request of
    the page, each with what it was answered. *)
Definition refreshes (net : Net) (n k : nat) : list (Request * FetchOutcome) :=
  map (fun i => (refresh_request, net i refresh_request)) (seq n k).

Definition quota_exceeded : Thrown :=
  ErrorInstance "The quota has been exceeded.".

(** A storage that refuses every write. *)
Definition full : PersistedStore.Storage := fun _ _ => Some quota_exceeded.

(** A storage that accepts the first [k] writes of the page and refuses
    the later ones. *)
Definition full_after (k : nat) : PersistedStore.Storage :=
  fun n _ => if (n <? k)%nat then None else Some quota_exceeded.

End PersistedStoreSpec.

Module AuthStoreMoreSpec.
Import Js Http AuthStore AuthStoreSpec.

(** The operations that write [user]. *)
Definition writes_user (op : Op) : bool :=
  match op with
  | SetUser _ | Login _ _ | Logout => true
  | _ => false
  end.

(** The operations that write [accessToken] or [isAuthenticated]. *)
Definition writes_session (op : Op) : bool :=
  match op with
  | SetAccessToken _ | Login _ _ | Logout | RefreshAccessToken | ValidateToken => true
  | _ => false
  end.

(** The operations that call [fetch]. *)
Definition fetches (op : Op) : bool :=
  match op with
  | Logout | RefreshAccessToken | ValidateToken => true
  | _ => false
  end.

(** The refresh endpoint answers a success whose body carries a
    non-empty [accessToken]. *)
Definition refresh_granted (out : FetchOutcome) (t : string) : Prop :=
  exists r,
    out = Resolved r /\ ok r = true /\
    body r = JsonValue (JsonObject (Some t)) /\ t <> "".

End AuthStoreMoreSpec.

Module AuthProviderMoreSpec.
Import AuthStore AuthProvider.

Definition from_effect (o : Origin) : bool :=
  match o with
  | FromEffect => true
  | FromInterval => false
  end.

(** The calls of [validateToken()] that the first effect made. *)
Definition effect_calls (p : Page) : list Origin :=
  List.filter from_effect (validations p).

(** How often a sequence of events takes the provider from "not rendered
    authenticated" ([on = false]) to "rendered authenticated". *)
Fixpoint sign_ins (on : bool) (evs : list Event) : nat :=
  match evs with
  | [] => 0
  | Render s :: evs' =>
      (if negb on && isAuthenticated s then 1 else 0) + sign_ins (isAuthenticated s) evs'
  | Unmount :: evs' => sign_ins false evs'
  | Elapse _ :: evs' => sign_ins on evs'
  end%nat.

End AuthProviderMoreSpec.

(** * The route handlers behind the store

    The three endpoints the store calls are handlers of this repository:
    the validate, refresh and logout routes.  Each reads the incoming
    request, asks the backend at most once and answers with
    [NextResponse.json]. *)

Module JsString.

(** [s.startsWith(p)] *)
Definition startsWith (s p : string) : bool := String.prefix p s.

(** [s.substring(n)]: what is left of [s] after its first [n] characters. *)
Fixpoint substring_from (n : nat) (s : string) : string :=
  match n, s with
  | O, _ => s
  | S _, EmptyString => EmptyString
  | S n', String _ s' => substring_from n' s'
  end.

(** [a || d] for an [a] that may be undefined and a string [d]. *)
Definition or_default (a : option string) (d : string) : string :=
  if Js.truthy_opt a then Js.template a else d.

(** [a || b] for two values that may be undefined. *)
Definition or_else (a b : option string) : option string :=
  if Js.truthy_opt a then a else b.

(** [s.split(sep)] for a one-character separator. *)
Fixpoint split (sep : Ascii.ascii) (s : string) : list string :=
  match s with
  | EmptyString => [EmptyString]
  | String c s' =>
      if Ascii.eqb c sep then EmptyString :: split sep s'
      else
        match split sep s' with
        | [] => [String c EmptyString]
        | p :: ps => String c p :: ps
        end
  end.

(** [s.replace(/a/g, b)] for characters [a] and [b]. *)
Fixpoint replace_all (a b : Ascii.ascii) (s : string) : string :=
  match s with
  | EmptyString => EmptyString
  | String c s' => String (if Ascii.eqb c a then b else c) (replace_all a b s')
  end.

(** [v === s] for a [v] that may be undefined and a string [s]. *)
Definition is_string (v : option string) (s : string) : bool :=
  match v with
  | Some x => String.eqb x s
  | None => false
  end.

End JsString.

Module Server.
Import Js JsString AuthStore.

(** [process.env], as far as the handlers read it. *)
Record Env : Type := mkEnv {
  NEXT_PUBLIC_API_URL : option string;
  API_URL : option string;
  NODE_ENV : option string
}.

(** The incoming [NextRequest]: its headers by lower-case name (what
    [headers.get] looks up) and its cookies by name (what
    [cookies.get(name)?.value] gives). *)
Record Incoming : Type := mkIncoming {
  in_headers : gmap string string;
  in_cookies : gmap string string
}.

(** The body of a request to the backend, before [JSON.stringify]. *)
Inductive UpstreamBody : Type :=
| NoBody
| RefreshTokenBody (refreshToken : string).

Record Upstream : Type := mkUpstream {
  up_url : string;
  up_method : string;
  up_headers : list (string * string);
  up_body : UpstreamBody
}.

(** What the handlers read of a backend body: [data.accessToken] (a
    string when present) and [data.user] (any JSON value, kept as its
    text: the handler hands it on unread). *)
Inductive BackendData : Type :=
| BackendNull
| BackendObject (accessToken : option string) (user : option string).

Inductive BackendBody : Type :=
| BackendJsonRejects (error : Thrown)
| BackendJson (data : BackendData).

Record BackendResponse : Type := mkBackendResponse {
  b_status : Z;
  b_body : BackendBody
}.

Definition b_ok (r : BackendResponse) : bool :=
  (200 <=? b_status r) && (b_status r <=? 299).

Inductive BackendOutcome : Type :=
| BackendRejected (error : Thrown)
| BackendResolved (response : BackendResponse).

(** The backend: what it answers to a request of a handler. *)
Definition Backend : Type := Upstream -> BackendOutcome.

(** The object given to [NextResponse.json]. *)
Inductive ReplyBody : Type :=
| ErrorReply (error : string)
| ValidReply (user : option string)
| TokenReply (accessToken : option string)
| MessageReply (message : string).

(** One [response.cookies.set(name, value, options)]. *)
Record SetCookie : Type := mkSetCookie {
  c_name : string;
  c_value : string;
  c_httpOnly : bool;
  c_secure : bool;
  c_sameSite : string;
  c_maxAge : Z;
  c_path : string
}.

Record Reply : Type := mkReply {
  reply_status : Z;
  reply_body : ReplyBody;
  reply_cookies : list SetCookie
}.

(** What a handler leaves behind: its requests to the backend with their
    answers, and its [console.error] lines. *)
Record Trail : Type := mkTrail {
  upstream : list (Upstream * BackendOutcome);
  errors : list (string * Thrown)
}.

Definition no_trail : Trail := {| upstream := []; errors := [] |}.

Definition H (A : Type) : Type := Trail -> Outcome A * Trail.

Definition hret {A} (a : A) : H A := fun t => (Returned a, t).

Definition hbind {A B} (m : H A) (k : A -> H B) : H B :=
  fun t =>
    match m t with
    | (Returned a, t') => k a t'
    | (Threw e, t') => (Threw e, t')
    end.

Definition hthrow {A} (e : Thrown) : H A := fun t => (Threw e, t).

Definition htry {A} (body : H A) (handler : Thrown -> H A) : H A :=
  fun t =>
    match body t with
    | (Returned a, t') => (Returned a, t')
    | (Threw e, t') => handler e t'
    end.

Declare Scope handler_scope.
Delimit Scope handler_scope with handler.
Bind Scope handler_scope with H.
Notation "x <- m ;; k" := (hbind m (fun x => k))
  (at level 100, m at next level, right associativity) : handler_scope.
Notation "m ;; k" := (hbind m (fun _ => k))
  (at level 100, right associativity) : handler_scope.
Local Open Scope handler_scope.

Definition log_error (line : string) (e : Thrown) : H unit :=
  fun t => (Returned tt, {| upstream := upstream t; errors := errors t ++ [(line, e)] |}).

(** A status that a response with a body cannot carry: [new Response]
    throws a [RangeError] outside 200-599 and a [TypeError] on the null
    body statuses. *)
Definition no_body_status (status : Z) : bool :=
  (status <? 200) || (599 <? status) ||
  (status =? 204) || (status =? 205) || (status =? 304).

Definition invalid_status_error : Thrown :=
  ErrorInstance "Invalid response status code".

(** [NextResponse.json(body, { status })] *)
Definition NextResponse_json (body : ReplyBody) (status : Z) : H Reply :=
  if no_body_status status then hthrow invalid_status_error
  else hret {| reply_status := status; reply_body := body; reply_cookies := [] |}.

Section Handlers.

Variable env : Env.
Variable backend : Backend.

(** [await fetch(url, init)] *)
Definition hfetch (req : Upstream) : H BackendResponse :=
  fun t =>
    let out := backend req in
    let t' := {| upstream := upstream t ++ [(req, out)]; errors := errors t |} in
    match out with
    | BackendRejected e => (Threw e, t')
    | BackendResolved r => (Returned r, t')
    end.

(** [await response.json()] *)
Definition hjson (r : BackendResponse) : H BackendData :=
  match b_body r with
  | BackendJsonRejects e => hthrow e
  | BackendJson d => hret d
  end.

Definition null_data_error (property : string) : Thrown :=
  ErrorInstance ("Cannot read properties of null (reading '" ++ property ++ "')").

(** [data.user] *)
Definition read_user (data : BackendData) : H (option string) :=
  match data with
  | BackendNull => hthrow (null_data_error "user")
  | BackendObject _ u => hret u
  end.

(** [data.accessToken] *)
Definition read_token (data : BackendData) : H (option string) :=
  match data with
  | BackendNull => hthrow (null_data_error "accessToken")
  | BackendObject t _ => hret t
  end.

(** The validate route. *)
Definition validate_POST (request : Incoming) : H Reply :=
  htry
    (let authHeader := in_headers request !! "authorization" in
     if negb (truthy_opt authHeader) || negb (startsWith (template authHeader) "Bearer ") then
       NextResponse_json (ErrorReply "Access Token이 없습니다") 401
     else
       let accessToken := substring_from 7 (template authHeader) in
       let apiUrl :=
         or_default (or_else (NEXT_PUBLIC_API_URL env) (API_URL env)) "http://localhost:8080" in
       let backendUrl := if startsWith apiUrl "http" then apiUrl else "https://" ++ apiUrl in
       response <- hfetch {| up_url := backendUrl ++ "/api/auth/validate";
                             up_method := "POST";
                             up_headers := [ ("Content-Type", "application/json");
                                             ("Authorization", "Bearer " ++ accessToken) ];
                             up_body := NoBody |} ;;
       if negb (b_ok response) then
         NextResponse_json (ErrorReply "Access Token이 유효하지 않습니다") (b_status response)
       else
         data <- hjson response ;;
         user <- read_user data ;;
         NextResponse_json (ValidReply user) 200)
    (fun error =>
       log_error "[Validate API] 오류:" error ;;
       NextResponse_json (ErrorReply "Access Token 검증 중 오류가 발생했습니다") 500).

(** The refresh route. *)
Definition refresh_POST (request : Incoming) : H Reply :=
  htry
    (let refreshToken := in_cookies request !! "refreshToken" in
     if negb (truthy_opt refreshToken) then
       NextResponse_json (ErrorReply "Refresh Token이 없습니다") 401
     else
       let apiUrl :=
         or_default (or_else (NEXT_PUBLIC_API_URL env) (API_URL env)) "api.minsol.kr" in
       let backendUrl := if startsWith apiUrl "http" then apiUrl else "https://" ++ apiUrl in
       response <- hfetch {| up_url := backendUrl ++ "/api/auth/refresh";
                             up_method := "POST";
                             up_headers := [ ("Content-Type", "application/json") ];
                             up_body := RefreshTokenBody (template refreshToken) |} ;;
       if negb (b_ok response) then
         NextResponse_json (ErrorReply "Access Token 갱신 실패") (b_status response)
       else
         data <- hjson response ;;
         accessToken <- read_token data ;;
         NextResponse_json (TokenReply accessToken) 200)
    (fun error =>
       log_error "[Refresh API] 오류:" error ;;
       NextResponse_json (ErrorReply "Access Token 갱신 중 오류가 발생했습니다") 500).

(** The logout route. *)
Definition logout_POST : H Reply :=
  htry
    (response <- NextResponse_json (MessageReply "로그아웃 성공") 200 ;;
     hret {| reply_status := reply_status response;
             reply_body := reply_body response;
             reply_cookies :=
               reply_cookies response ++
               [ {| c_name := "refreshToken";
                    c_value := "";
                    c_httpOnly := true;
                    c_secure := is_string (NODE_ENV env) "production";
                    c_sameSite := "lax";
                    c_maxAge := 0;
                    c_path := "/" |} ] |})
    (fun error =>
       log_error "[Logout API] 오류:" error ;;
       NextResponse_json (ErrorReply "로그아웃 처리 중 오류가 발생했습니다") 500).

End Handlers.

End Server.

(** * The store in front of its routes *)

Module Site.
Import Js JsString Http AuthStore Server.

Definition lower_ascii (c : Ascii.ascii) : Ascii.ascii :=
  let n := Ascii.nat_of_ascii c in
  if ((65 <=? n) && (n <=? 90))%nat then Ascii.ascii_of_nat (n + 32) else c.

(** Header names are looked up in lower case. *)
Fixpoint toLowerCase (s : string) : string :=
  match s with
  | EmptyString => EmptyString
  | String c s' => String (lower_ascii c) (toLowerCase s')
  end.

(** HTTP white space: tab, line feed, carriage return, space. *)
Definition http_space (c : Ascii.ascii) : bool :=
  let n := Ascii.nat_of_ascii c in
  ((n =? 9) || (n =? 10) || (n =? 13) || (n =? 32))%nat.

Fixpoint strip_start (s : string) : string :=
  match s with
  | EmptyString => EmptyString
  | String c s' => if http_space c then strip_start s' else s
  end.

Fixpoint strip_end (s : string) : string :=
  match s with
  | EmptyString => EmptyString
  | String c s' =>
      match strip_end s' with
      | EmptyString => if http_space c then EmptyString else String c EmptyString
      | rest => String c rest
      end
  end.

(** A header value as [fetch] sends it: without the white space around
    it. *)
Definition normalize (value : string) : string := strip_end (strip_start value).

Section Transport.

(** The platform between the store and its routes. [valid_header] says
    which normalized values [fetch] accepts as a header value;
    [header_error] is the [TypeError] its promise rejects with for
    another. [cookie_value] is what [request.cookies] makes of the value
    of a cookie the browser holds: the decoded value, or nothing when it
    does not decode. *)
Variable valid_header : string -> bool.
Variable header_error : Thrown.
Variable cookie_value : string -> option string.

(** The request of the store as the handler receives it, if [fetch]
    sends it: its headers, normalized, and the cookies the browser holds
    for the site (every request of the store is sent with
    [credentials: 'include']). *)
Definition incoming (jar : gmap string string) (req : Request) : option Incoming :=
  let sent := map (fun h => (toLowerCase (fst h), normalize (snd h))) (headers req) in
  if forallb (fun h => valid_header (snd h)) sent then
    Some {| in_headers := list_to_map sent;
            in_cookies := omap cookie_value jar |}
  else None.

(** The reply of a handler as [fetch] and [response.json()] show it to
    the store: the status, and a JSON object whose [accessToken] is the
    one of the reply, if it has one. *)
Definition delivered (r : Reply) : FetchOutcome :=
  Resolved {| status := reply_status r;
              body := JsonValue (JsonObject match reply_body r with
                                            | TokenReply t => t
                                            | _ => None
                                            end) |}.

(** What a request that no handler answers with JSON comes back as: a
    response with the given status whose body does not parse. *)
Definition not_json (status : Z) : FetchOutcome :=
  Resolved {| status := status;
              body := JsonRejects (ErrorInstance "Unexpected token '<'") |}.

Definition answer (r : Outcome Reply * Trail) : FetchOutcome :=
  match fst r with
  | Returned reply => delivered reply
  | Threw _ => not_json 500
  end.

(** The network of the store when the three handlers are mounted where
    the store looks for them; [backend n] is the backend at the time of
    the n-th request. *)
Definition site (env : Env) (jar : gmap string string) (backend : nat -> Backend) : Net :=
  fun n req =>
    match incoming jar req with
    | None => Rejected header_error
    | Some request =>
        if negb (String.eqb (method req) "POST") then not_json 405
        else if String.eqb (url req) "/api/auth/validate" then
          answer (validate_POST env (backend n) request no_trail)
        else if String.eqb (url req) "/api/auth/refresh" then
          answer (refresh_POST env (backend n) request no_trail)
        else if String.eqb (url req) "/api/auth/logout" then
          answer (logout_POST env no_trail)
        else not_json 404
    end.

End Transport.

End Site.

Module ServerSpec.
Import Js JsString Http AuthStore Server Site.

(** The [Authorization] header is there and starts with ["Bearer "]. *)
Definition bearer (auth : option string) : bool :=
  truthy_opt auth && startsWith (template auth) "Bearer ".

(** The backend address of the validate route. *)
Definition validate_backend (env : Env) : string :=
  let apiUrl :=
    or_default (or_else (NEXT_PUBLIC_API_URL env) (API_URL env)) "http://localhost:8080" in
  if startsWith apiUrl "http" then apiUrl else "https://" ++ apiUrl.

(** The backend address of the refresh route. *)
Definition refresh_backend (env : Env) : string :=
  let apiUrl :=
    or_default (or_else (NEXT_PUBLIC_API_URL env) (API_URL env)) "api.minsol.kr" in
  if startsWith apiUrl "http" then apiUrl else "https://" ++ apiUrl.

(** The request the validate route sends for token [t]. *)
Definition validate_upstream (env : Env) (t : string) : Upstream :=
  {| up_url := validate_backend env ++ "/api/auth/validate";
     up_method := "POST";
     up_headers := [ ("Content-Type", "application/json");
                     ("Authorization", "Bearer " ++ t) ];
     up_body := NoBody |}.

(** The request the refresh route sends for refresh token [rt]. *)
Definition refresh_upstream (env : Env) (rt : string) : Upstream :=
  {| up_url := refresh_backend env ++ "/api/auth/refresh";
     up_method := "POST";
     up_headers := [ ("Content-Type", "application/json") ];
     up_body := RefreshTokenBody rt |}.

(** The backend answers a success whose body is an object. *)
Definition backend_accepts (out : BackendOutcome) : bool :=
  match out with
  | BackendResolved r =>
      b_ok r && match b_body r with
                | BackendJson (BackendObject _ _) => true
                | _ => false
                end
  | BackendRejected _ => false
  end.

(** The backend answers a success whose body carries the non-empty
    access token [t]. *)
Definition backend_grants (out : BackendOutcome) (t : string) : Prop :=
  exists r u,
    out = BackendResolved r /\ b_ok r = true /\
    b_body r = BackendJson (BackendObject (Some t) u) /\ t <> "".

(** The reply and trail of a handler whose [catch] block ran. *)
Definition failed (line msg : string) (e : Thrown) (t : Trail) : Outcome Reply * Trail :=
  (Returned {| reply_status := 500; reply_body := ErrorReply msg; reply_cookies := [] |},
   {| upstream := upstream t; errors := errors t ++ [(line, e)] |}).

(** The trail after one request to the backend. *)
Definition asked (t : Trail) (req : Upstream) (out : BackendOutcome) : Trail :=
  {| upstream := upstream t ++ [(req, out)]; errors := errors t |}.

(** The refresh token the refresh route reads: the value of the
    [refreshToken] cookie of the browser as [request.cookies] gives it. *)
Definition refresh_cookie (cookie_value : string -> option string)
    (jar : gmap string string) : option string :=
  jar !! "refreshToken" ≫= cookie_value.


(** A platform for the samples: it accepts a header value without
    control characters and hands cookie values on as they are. *)
Definition printable (value : string) : bool :=
  forallb (fun c => (32 <=? Ascii.nat_of_ascii c)%nat) (list_ascii_of_string value).

Definition header_rejected : Thrown := ErrorInstance "Invalid header value".

(** Sample environment, cookie jars and backends. *)
Definition production : Env :=
  {| NEXT_PUBLIC_API_URL := Some "api.minsol.kr"; API_URL := None;
     NODE_ENV := Some "production" |}.

Definition jar_with_refresh_token : gmap string string :=
  {[ "refreshToken" := "r-1" ]}.

(** Sample requests as the handlers receive them. *)
Definition bearer_abc : Incoming :=
  {| in_headers := list_to_map [ ("content-type", "application/json");
                                 ("authorization", "Bearer abc") ];
     in_cookies := ∅ |}.

Definition holding_cookie : Incoming :=
  {| in_headers := ∅; in_cookies := jar_with_refresh_token |}.

Definition without_cookie : Incoming :=
  {| in_headers := ∅; in_cookies := ∅ |}.

Definition backend_rejecting : Backend :=
  fun _ => BackendResolved {| b_status := 401; b_body := BackendJson BackendNull |}.

Definition backend_granting : Backend :=
  fun _ => BackendResolved {| b_status := 200;
                              b_body := BackendJson (BackendObject (Some "xyz") None) |}.

End ServerSpec.

(** * Callers of the store *)

(** A state-and-exception monad over any state, for the code outside the
    store. *)
Module Eff.
Import Js AuthStore.

Definition Eff (S A : Type) : Type := S -> Outcome A * S.

Definition eret {S A} (a : A) : Eff S A := fun s => (Returned a, s).

Definition ebind {S A B} (m : Eff S A) (k : A -> Eff S B) : Eff S B :=
  fun s =>
    match m s with
    | (Returned a, s') => k a s'
    | (Threw e, s') => (Threw e, s')
    end.

Definition ethrow {S A} (e : Thrown) : Eff S A := fun s => (Threw e, s).

Definition etry {S A} (body : Eff S A) (handler : Thrown -> Eff S A) : Eff S A :=
  fun s =>
    match body s with
    | (Returned a, s') => (Returned a, s')
    | (Threw e, s') => handler e s'
    end.

(** A platform call that returns or throws. *)
Definition call {S A} (r : Thrown + A) : Eff S A :=
  match r with
  | inl e => ethrow e
  | inr a => eret a
  end.

Declare Scope eff_scope.
Delimit Scope eff_scope with eff.
Bind Scope eff_scope with Eff.
Notation "x <- m ;; k" := (ebind m (fun x => k))
  (at level 100, m at next level, right associativity) : eff_scope.
Notation "m ;; k" := (ebind m (fun _ => k))
  (at level 100, right associativity) : eff_scope.

End Eff.

(** ** utils/jwt *)

Module Jwt.
Import Ascii Js JsString Eff.
Local Open Scope eff_scope.

(** What [JSON.parse] makes of a token's payload, as far as the code
    reads it; every property is a string when present, as
    [JWTPayload] declares. *)
Record JWTPayload : Type := mkJWTPayload {
  sub : option string;
  provider : option string;
  email : option string;
  nickname : option string;
  name : option string;
  profile_image : option string;
  picture : option string
}.

(** The value [JSON.parse] returns: [null] (or another falsy value), or a
    value with the properties above. *)
Inductive Parsed : Type :=
| ParsedNull
| ParsedValue (payload : JWTPayload).

(** The object [extractUserFromToken] builds. Its [provider] is whatever
    string the payload carries: the cast to the three provider names is
    not checked at run time. *)
Record ExtractedUser : Type := mkExtractedUser {
  id : string;
  user_email : option string;
  user_nickname : option string;
  profileImage : option string;
  user_provider : string
}.

(** [parts[i]], a string here since the index is within the array. *)
Definition at_index (parts : list string) (i : nat) : string :=
  nth i parts EmptyString.

Section WithPlatform.

(** [atob] and [JSON.parse], which return or throw. *)
Variable atob : string -> Thrown + string.
Variable JSON_parse : string -> Thrown + Parsed.

(** The console: the [console.error] lines, oldest first. *)
Definition Console : Type := list (string * Thrown).

Definition console_error (line : string) (e : Thrown) : Eff Console unit :=
  fun c => (AuthStore.Returned tt, (c ++ [(line, e)])%list).

Definition decodeJWT (token : string) : Eff Console (option JWTPayload) :=
  etry
    (let parts := split "."%char token in
     if negb (length parts =? 3)%nat then eret None
     else
       let payload := at_index parts 1 in
       decoded <- call (atob (replace_all "_"%char "/"%char
                                      (replace_all "-"%char "+"%char payload))) ;;
       parsed <- call (JSON_parse decoded) ;;
       eret match parsed with
            | ParsedNull => None
            | ParsedValue p => Some p
            end)
    (fun error =>
       console_error "[JWT Utils] 토큰 디코딩 실패:" error ;;
       eret None).

Definition extractUserFromToken (token : string) : Eff Console (option ExtractedUser) :=
  payload <- decodeJWT token ;;
  match payload with
  | None => eret None
  | Some payload =>
      if negb (truthy_opt (sub payload)) then eret None
      else
        let provider := or_default (provider payload) "google" in
        eret (Some {| id := template (sub payload);
                      user_email := email payload;
                      user_nickname := or_else (nickname payload) (name payload);
                      profileImage := or_else (profile_image payload) (picture payload);
                      user_provider := provider |})
  end.

End WithPlatform.

End Jwt.

(** ** app/auth/google/callback/GoogleCallbackClient *)

Module GoogleCallback.
Import Js JsString AuthStore Eff.
Local Open Scope eff_scope.

(** The properties the client reads of the JSON it gets back. *)
Record Fields : Type := mkFields {
  f_success : bool;
  f_accessToken : option string;
  f_token : option string;
  f_user : option User;
  f_redirectUrl : option string
}.

(** A parsed body: [null], or a value with the properties above (all
    absent for a value that is not an object). *)
Inductive Json : Type :=
| JsonNull
| JsonFields (f : Fields).

(** The body of the answer: reading it fails, or it is not JSON, or it
    parses. *)
Inductive Payload : Type :=
| Unreadable (e : Thrown)
| NotJson (e : Thrown)
| Parsed (d : Json).

Record ApiResponse : Type := mkApiResponse {
  status : Z;
  payload : Payload
}.

Definition ok (r : ApiResponse) : bool :=
  (200 <=? status r) && (status r <=? 299).

Inductive ApiOutcome : Type :=
| ApiRejected (e : Thrown)
| ApiResolved (r : ApiResponse).

(** The request of [handleCallback], its body before [JSON.stringify]. *)
Record ApiRequest : Type := mkApiRequest {
  api_url : string;
  api_method : string;
  api_credentials : string;
  api_headers : list (string * string);
  api_code : string
}.

Inductive Level : Type := Log | Warn | Error.

(** The page: the store, the routes pushed on the router, the requests
    sent, and the console lines by level and label. *)
Record Page : Type := mkPage {
  auth : World;
  pushes : list string;
  sent : list (ApiRequest * ApiOutcome);
  lines : list (Level * string)
}.

Definition opened (w : World) : Page :=
  {| auth := w; pushes := []; sent := []; lines := [] |}.

Definition push (route : string) : Eff Page unit :=
  fun p => (Returned tt,
            {| auth := auth p; pushes := (pushes p ++ [route])%list;
               sent := sent p; lines := lines p |}).

Definition console (level : Level) (label : string) : Eff Page unit :=
  fun p => (Returned tt,
            {| auth := auth p; pushes := pushes p;
               sent := sent p; lines := (lines p ++ [(level, label)])%list |}).

(** An action of the store, run on the store of the page; what it
    throws, it throws into the page's code. *)
Definition on_store {A} (m : M A) : Eff Page A :=
  fun p =>
    let '(o, w) := m (auth p) in
    (o, {| auth := w; pushes := pushes p; sent := sent p; lines := lines p |}).

Section WithApi.

(** The storage behind the store's persist middleware. *)
Variable storage : PersistedStore.Storage.

(** The API route that answers the callback request. *)
Variable api : ApiRequest -> ApiOutcome.

(** [extractUserFromToken] of utils/jwt, by its signature. *)
Variable extractUserFromToken : string -> option User.

Definition fetch (req : ApiRequest) : Eff Page ApiResponse :=
  fun p =>
    let out := api req in
    let p' := {| auth := auth p; pushes := pushes p;
                 sent := (sent p ++ [(req, out)])%list; lines := lines p |} in
    match out with
    | ApiRejected e => (Threw e, p')
    | ApiResolved r => (Returned r, p')
    end.

(** [await response.text()] *)
Definition text (r : ApiResponse) : Eff Page Payload :=
  match payload r with
  | Unreadable e => ethrow e
  | other => eret other
  end.

(** [JSON.parse(errorText)] *)
Definition JSON_parse (body : Payload) : Eff Page Json :=
  match body with
  | Unreadable e | NotJson e => ethrow e
  | Parsed d => eret d
  end.

(** [await response.json()] *)
Definition json (r : ApiResponse) : Eff Page Json :=
  match payload r with
  | Unreadable e | NotJson e => ethrow e
  | Parsed d => eret d
  end.

Definition null_error (property : string) : Thrown :=
  ErrorInstance ("Cannot read properties of null (reading '" ++ property ++ "')").

(** [data.property]: throws on [null]. *)
Definition fields_of (property : string) (d : Json) : Eff Page Fields :=
  match d with
  | JsonNull => ethrow (null_error property)
  | JsonFields f => eret f
  end.

Definition callback_request (code : string) : ApiRequest :=
  {| api_url := "/api/google/callback";
     api_method := "POST";
     api_credentials := "include";
     api_headers := [ ("Content-Type", "application/json") ];
     api_code := code |}.

Definition handleCallback (code : string) : Eff Page unit :=
  etry
    (console Log "[Google Callback Client] Next.js API 라우트로 요청 전송, code:" ;;
     response <- fetch (callback_request code) ;;
     console Log "[Google Callback Client] API 응답 상태:" ;;
     if negb (ok response) then
       etry
         (errorText <- text response ;;
          console Error "[Google Callback Client] API 오류 응답:" ;;
          errorData <- JSON_parse errorText ;;
          console Error "[Google Callback Client] 파싱된 에러 데이터:" ;;
          errorData <- fields_of "redirectUrl" errorData ;;
          if truthy_opt (f_redirectUrl errorData) then
            push (template (f_redirectUrl errorData))
          else
            push "/")
         (fun parseError =>
            console Error "[Google Callback Client] JSON 파싱 실패:" ;;
            console Error "[Google Callback Client] 원본 에러 텍스트:" ;;
            push "/")
     else
       parsed <- etry
                   (data <- json response ;;
                    console Log "[Google Callback Client] API 응답 데이터:" ;;
                    eret (Some data))
                   (fun jsonError =>
                      console Error "[Google Callback Client] JSON 파싱 오류:" ;;
                      push "/" ;;
                      eret None) ;;
       match parsed with
       | None => eret tt
       | Some data =>
           data <- fields_of "success" data ;;
           if f_success data || ok response then
             let accessToken := or_else (f_accessToken data) (f_token data) in
             (if truthy_opt accessToken then
                let user :=
                  match f_user data with
                  | Some u => Some u
                  | None => extractUserFromToken (template accessToken)
                  end in
                match user with
                | Some u =>
                    console Log "[Google Callback Client] Access Token과 사용자 정보를 스토어에 저장" ;;
                    on_store (PersistedStore.login storage (template accessToken) u)
                | None =>
                    console Log "[Google Callback Client] Access Token만 스토어에 저장 (사용자 정보 없음)" ;;
                    on_store (PersistedStore.setAccessToken storage (template accessToken))
                end
              else eret tt) ;;
             let redirectUrl := or_default (f_redirectUrl data) "/dashboard/google" in
             console Log "[Google Callback Client] 로그인 성공, 리다이렉트:" ;;
             push redirectUrl
           else
             console Error "[Google Callback Client] 로그인 실패:" ;;
             if truthy_opt (f_redirectUrl data) then
               push (template (f_redirectUrl data))
             else
               push "/"
       end)
    (fun error =>
       console Error "[Google Callback Client] 예외 발생:" ;;
       console Error "[Google Callback Client] 에러 타입:" ;;
       console Error "[Google Callback Client] 에러 메시지:" ;;
       console Error "[Google Callback Client] 에러 스택:" ;;
       push "/").

(** The effect of the component: what it does with the [error] and
    [code] parameters of the page's address. *)
Definition on_mount (error code : option string) : Eff Page unit :=
  if truthy_opt error then
    console Error "구글 인증 에러:" ;;
    push "/"
  else if truthy_opt code then
    handleCallback (template code)
  else
    push "/".

End WithApi.

End GoogleCallback.

Module CallersSpec.
Import Ascii Js JsString AuthStore Eff.

(** How often the character [c] occurs in [s]. *)
Fixpoint occurrences (c : ascii) (s : string) : nat :=
  match s with
  | EmptyString => 0
  | String x s' => (if Ascii.eqb x c then 1 else 0) + occurrences c s'
  end%nat.

(** Where [handleCallback] sends the router, by the answer it gets. *)
Definition destination (out : GoogleCallback.ApiOutcome) : string :=
  match out with
  | GoogleCallback.ApiRejected _ => "/"
  | GoogleCallback.ApiResolved r =>
      match GoogleCallback.payload r with
      | GoogleCallback.Parsed (GoogleCallback.JsonFields f) =>
          or_default (GoogleCallback.f_redirectUrl f)
            (if GoogleCallback.ok r then "/dashboard/google" else "/")
      | _ => "/"
      end
  end.

(** The answer signs the user in: a success whose body carries a
    non-empty [accessToken], or else a non-empty [token]. *)
Definition signs_in (out : GoogleCallback.ApiOutcome)
  : option (string * GoogleCallback.Fields) :=
  match out with
  | GoogleCallback.ApiResolved r =>
      if GoogleCallback.ok r then
        match GoogleCallback.payload r with
        | GoogleCallback.Parsed (GoogleCallback.JsonFields f) =>
            let t := or_else (GoogleCallback.f_accessToken f) (GoogleCallback.f_token f) in
            if truthy_opt t then Some (template t, f) else None
        | _ => None
        end
      else None
  | GoogleCallback.ApiRejected _ => None
  end.

(** The user [handleCallback] signs in: the [user] of the answer, else
    the one extracted from the token, else the one the store holds. *)
Definition signed_in_user (extract : string -> option User) (before : AuthState)
    (t : string) (f : GoogleCallback.Fields) : option User :=
  match GoogleCallback.f_user f, extract t with
  | Some u, _ => Some u
  | None, Some u => Some u
  | None, None => user before
  end.

(** The storage refuses the session that [handleCallback] stores for the
    answer [out], at the store's next write. *)
Definition refused (storage : PersistedStore.Storage) (extract : string -> option User)
    (w : World) (out : GoogleCallback.ApiOutcome) : bool :=
  match signs_in out with
  | Some (t, f) =>
      match storage (length (actions w))
              {| AuthPersist.saved_accessToken := Some t;
                 AuthPersist.saved_user := signed_in_user extract (store w) t f;
                 AuthPersist.saved_isAuthenticated := true |} with
      | Some _ => true
      | None => false
      end
  | None => false
  end.

(** Sample answers. *)
Definition answer_token_only : GoogleCallback.ApiOutcome :=
  GoogleCallback.ApiResolved
    {| GoogleCallback.status := 200;
       GoogleCallback.payload :=
         GoogleCallback.Parsed
           (GoogleCallback.JsonFields
              {| GoogleCallback.f_success := false;
                 GoogleCallback.f_accessToken := None;
                 GoogleCallback.f_token := Some "tok";
                 GoogleCallback.f_user := None;
                 GoogleCallback.f_redirectUrl := None |}) |}.

End CallersSpec.

(** * services/mainservice: the refresh token cookie, and lib/api config *)

Module TokenService.
Import Ascii Js JsString AuthStore Eff Server.
Local Open Scope eff_scope.

(** White space that [trim] removes, among the characters of a header
    value (one character per byte): tab, line feed, vertical tab, form
    feed, carriage return, space and no-break space. *)
Definition is_space (c : ascii) : bool :=
  let n := nat_of_ascii c in
  ((9 <=? n) && (n <=? 13) || (n =? 32) || (n =? 160))%nat.

Fixpoint trimStart (s : string) : string :=
  match s with
  | EmptyString => EmptyString
  | String c s' => if is_space c then trimStart s' else s
  end.

Fixpoint trimEnd (s : string) : string :=
  match s with
  | EmptyString => EmptyString
  | String c s' =>
      match trimEnd s' with
      | EmptyString => if is_space c then EmptyString else String c EmptyString
      | rest => String c rest
      end
  end.

(** [s.trim()] *)
Definition trim (s : string) : string := trimEnd (trimStart s).

(** [parts.join(sep)] *)
Fixpoint join (sep : string) (parts : list string) : string :=
  match parts with
  | [] => EmptyString
  | [p] => p
  | p :: ps => p ++ sep ++ join sep ps
  end.

(** [`${n}`] for a whole number [n] that a JavaScript number holds
    exactly ([safe_integer]): its decimal digits. *)
Definition number_to_string (n : Z) : string :=
  DecimalString.NilZero.string_of_int (Z.to_int n).

(** [Number.isSafeInteger(n)] *)
Definition safe_integer (n : Z) : bool := Z.abs n <=? 9007199254740991.

(** A [NextResponse]: status, headers by lower-case name (each with the
    values it holds, [Set-Cookie] may hold several) and body. *)
Record NextResponse : Type := mkNextResponse {
  res_status : Z;
  res_headers : gmap string (list string);
  res_body : string
}.

(** A response whose header [name] holds [value] and nothing else. *)
Definition set_header (name value : string) (r : NextResponse) : NextResponse :=
  {| res_status := res_status r;
     res_headers := <[ Site.toLowerCase name := [value] ]> (res_headers r);
     res_body := res_body r |}.

(** The responses alive during a call, by reference, and the console. A
    function that is handed a response and changes it changes the object
    its caller holds. *)
Record Service : Type := mkService {
  heap : gmap nat NextResponse;
  next_ref : nat;
  printed : list (GoogleCallback.Level * string)
}.

Definition print (level : GoogleCallback.Level) (label : string) : Eff Service unit :=
  fun s => (Returned tt,
            {| heap := heap s; next_ref := next_ref s;
               printed := (printed s ++ [(level, label)])%list |}).

Definition update (ref : nat) (f : NextResponse -> NextResponse) : Eff Service unit :=
  fun s => (Returned tt,
            {| heap := alter f ref (heap s); next_ref := next_ref s;
               printed := printed s |}).

Section WithPlatform.

(** The values [Headers] accepts, once normalized, and the [TypeError]
    it throws for another. *)
Variable valid_header : string -> bool.
Variable header_error : Thrown.

Variable env : Env.

(** [response.headers.set(name, value)] on the response under [ref]:
    the value is normalized and, if it is a valid header value, replaces
    whatever the name held; if not, the call throws and the response is
    as it was. *)
Definition headers_set (ref : nat) (name value : string) : Eff Service unit :=
  let value := Site.normalize value in
  if valid_header value then update ref (set_header name value)
  else ethrow header_error.

(** [NextResponse.redirect(url)]: the response it builds, or the error
    it throws on an address it does not accept. *)
Variable redirect_response : string -> Thrown + NextResponse.

(** [NextResponse.redirect(url)] gives a new object. *)
Definition NextResponse_redirect (url : string) : Eff Service nat :=
  fun s =>
    match redirect_response url with
    | inl e => (Threw e, s)
    | inr r =>
        (Returned (next_ref s),
         {| heap := <[ next_ref s := r ]> (heap s);
            next_ref := S (next_ref s);
            printed := printed s |})
    end.

Definition setRefreshTokenCookie (response : nat) (refreshToken : string)
    (maxAge : option Z) : Eff Service nat :=
  let maxAge := match maxAge with Some n => n | None => 30 * 24 * 60 * 60 end in
  let cookieOptions :=
    [ "refresh_token=" ++ refreshToken;
      "HttpOnly";
      "Secure";
      "SameSite=Strict";
      "Path=/";
      "Max-Age=" ++ number_to_string maxAge ] in
  let isProduction := is_string (NODE_ENV env) "production" in
  (if negb isProduction then
     let cookieWithoutSecure :=
       join "; " (List.filter (fun opt => negb (String.eqb opt "Secure")) cookieOptions) in
     headers_set response "Set-Cookie" cookieWithoutSecure
   else
     headers_set response "Set-Cookie" (join "; " cookieOptions)) ;;
  print GoogleCallback.Log "[TokenService] Refresh Token을 HttpOnly 쿠키에 저장 완료" ;;
  eret response.

(** [request.headers.get('cookie')] is the argument. *)
Definition getRefreshTokenFromCookie (cookies : option string) : option string :=
  if negb (truthy_opt cookies) then None
  else
    let cookieArray := map trim (split ";"%char (template cookies)) in
    match List.find (fun cookie => startsWith cookie "refresh_token=") cookieArray with
    | None => None
    | Some refreshTokenCookie =>
        let token := nth_error (split "="%char refreshTokenCookie) 1 in
        if truthy_opt token then token else None
    end.

Definition clearRefreshTokenCookie (response : nat) : Eff Service nat :=
  headers_set response "Set-Cookie"
    "refresh_token=; HttpOnly; Secure; SameSite=Strict; Path=/; Max-Age=0" ;;
  print GoogleCallback.Log "[TokenService] Refresh Token 쿠키 삭제 완료" ;;
  eret response.

(** The [options] argument of [handleLoginSuccess]. *)
Record LoginOptions : Type := mkLoginOptions {
  opt_maxAge : option Z;
  opt_redirectUrl : option string
}.

(** [n || d] for a number that may be undefined: zero is falsy. *)
Definition number_or (n : option Z) (d : Z) : Z :=
  match n with
  | Some v => if v =? 0 then d else v
  | None => d
  end.

Definition handleLoginSuccess (response : nat) (refreshToken : option string)
    (options : option LoginOptions) : Eff Service nat :=
  if negb (truthy_opt refreshToken) then
    print GoogleCallback.Warn "[TokenService] Refresh Token이 없어 쿠키에 저장하지 않습니다." ;;
    eret response
  else
    let maxAge :=
      number_or (match options with Some o => opt_maxAge o | None => None end)
                (30 * 24 * 60 * 60) in
    setRefreshTokenCookie response (template refreshToken) (Some maxAge) ;;
    let redirectUrl := match options with Some o => opt_redirectUrl o | None => None end in
    if truthy_opt redirectUrl then
      NextResponse_redirect (template redirectUrl)
    else
      eret response.

Definition handleLogout (response : nat) (redirectUrl : option string) : Eff Service nat :=
  clearRefreshTokenCookie response ;;
  if truthy_opt redirectUrl then
    NextResponse_redirect (template redirectUrl)
  else
    eret response.

End WithPlatform.

(** [getApiUrl] of the API configuration. *)
Definition getApiUrl (env : Env) : Outcome string :=
  let apiUrl := NEXT_PUBLIC_API_URL env in
  if negb (truthy_opt apiUrl) then
    if is_string (NODE_ENV env) "development" then Returned "api.minsol.kr"
    else Threw (ErrorInstance "NEXT_PUBLIC_API_URL 환경 변수가 설정되지 않았습니다.")
  else Returned (template apiUrl).

End TokenService.

Module TokenServiceSpec.
Import Ascii Js JsString AuthStore Eff Server TokenService.

(** The character [c] does not occur in [s]. *)
Fixpoint lacks (c : ascii) (s : string) : bool :=
  match s with
  | EmptyString => true
  | String x s' => negb (Ascii.eqb x c) && lacks c s'
  end.

(** No white space occurs in [s]. *)
Fixpoint no_space (s : string) : bool :=
  match s with
  | EmptyString => true
  | String x s' => negb (is_space x) && no_space s'
  end.

(** A cookie of the header that is not the refresh token: it holds no
    [;] and, trimmed, does not start with [refresh_token=]. *)
Definition other_cookie (c : string) : bool :=
  lacks ";" c && negb (startsWith (trim c) "refresh_token=").

(** A cookie value: no [;] and no white space in it. *)
Definition cookie_text (v : string) : bool := lacks ";" v && no_space v.

(** What is read of the value [v]: its part before the first [=], if
    that is not empty. *)
Definition read_value (v : string) : option string :=
  let a := hd EmptyString (split "=" v) in
  if truthy a then Some a else None.

(** The [Set-Cookie] line for token [t] and age [n]: its attributes,
    [Secure] among them in production only, joined by ["; "]. *)
Definition cookie_line (env : Env) (t : string) (n : Z) : string :=
  let pair := "refresh_token=" ++ t in
  let age := "Max-Age=" ++ number_to_string n in
  join "; "
    (pair :: "HttpOnly" ::
     List.app (if is_string (NODE_ENV env) "production" then ["Secure"] else [])
              ["SameSite=Strict"; "Path=/"; age]).

(** The response under [ref] after a call that wrote the cookie line. *)
Definition with_cookie (env : Env) (t : string) (n : Z) (r : NextResponse) : NextResponse :=
  set_header "Set-Cookie" (cookie_line env t n) r.

(** No HTTP white space occurs in [s]. *)
Fixpoint solid (s : string) : bool :=
  match s with
  | EmptyString => true
  | String x s' => negb (Site.http_space x) && solid s'
  end.

Definition thirty_days : Z := 2592000.

(** A service holding one response, under reference 0. *)
Definition one_response : Service :=
  {| heap := {[ 0%nat := {| res_status := 200; res_headers := ∅; res_body := "{}" |} ]};
     next_ref := 1;
     printed := [] |}.

Definition development : Env :=
  {| NEXT_PUBLIC_API_URL := None; API_URL := None; NODE_ENV := Some "development" |}.

End TokenServiceSpec.

(** * The Google auth-url proxy route: retries and status mapping *)

Module AuthUrlProxy.
Import Ascii Js JsString Server.

(** [s.includes(sub)] *)
Fixpoint includes (s sub : string) : bool :=
  String.prefix sub s ||
  match s with
  | EmptyString => false
  | String _ s' => includes s' sub
  end.

(** [`${v}`] for a value that may be undefined. *)
Definition template_undefined (v : option string) : string :=
  match v with
  | None => "undefined"
  | Some s => s
  end.

(** A thrown value: an [Error] with its [name] and [message], or
    something else. *)
Inductive Raised : Type :=
| RaisedError (name message : string)
| RaisedOther.

Definition is_error (e : Raised) : bool :=
  match e with
  | RaisedError _ _ => true
  | RaisedOther => false
  end.

(** [error instanceof Error ? error.name : fallback] *)
Definition name_or (e : Raised) (fallback : string) : string :=
  match e with
  | RaisedError n _ => n
  | RaisedOther => fallback
  end.

(** [error instanceof Error ? error.message : fallback] *)
Definition raised_message_or (e : Raised) (fallback : string) : string :=
  match e with
  | RaisedError _ m => m
  | RaisedOther => fallback
  end.

(** A property of a parsed JSON body as [||] and a method call see it:
    absent or another falsy value that is no string ([null], [false],
    [0]), a string, or a truthy value that is no string (a number but
    [0], [true], an object, an array). *)
Inductive JsonProperty : Type :=
| Falsy
| StringValue (s : string)
| Truthy.

(** [!!p] *)
Definition truthy_property (p : JsonProperty) : bool :=
  match p with
  | Falsy => false
  | StringValue s => truthy s
  | Truthy => true
  end.

(** [a || b] *)
Definition or_property (a b : JsonProperty) : JsonProperty :=
  if truthy_property a then a else b.

(** A parsed JSON body as the route reads it: whether it is [null], its
    [message] and [error] properties, and its [JSON.stringify] text. *)
Record JsonView : Type := mkJsonView {
  is_null : bool;
  v_message : JsonProperty;
  v_error : JsonProperty;
  v_stringified : string
}.

Definition empty_object : JsonView :=
  {| is_null := false; v_message := Falsy; v_error := Falsy; v_stringified := "{}" |}.

(** A response of the backend: status, content type, and what
    [json()] and [text()] give. *)
Record BackendReply : Type := mkBackendReply {
  br_status : Z;
  br_content_type : option string;
  br_json : Raised + JsonView;
  br_text : Raised + string
}.

Definition br_ok (r : BackendReply) : bool :=
  (200 <=? br_status r) && (br_status r <=? 299).

Inductive Attempt : Type :=
| Failed (e : Raised)
| Answered (r : BackendReply).

(** The incoming request: its content type, its text, and what
    [JSON.parse] makes of a text. *)
Record ProxyRequest : Type := mkProxyRequest {
  pr_content_type : option string;
  pr_text : Raised + string;
  pr_parse : string -> Raised + JsonView
}.

(** The request to the backend. *)
Record ProxyUpstream : Type := mkProxyUpstream {
  pu_url : string;
  pu_method : string;
  pu_headers : list (string * string);
  pu_body : JsonView
}.

(** The object the route answers with. *)
Inductive ProxyBody : Type :=
| Failure (error message : string) (status : option Z)
| Forwarded (data : JsonView).

Record ProxyReply : Type := mkProxyReply {
  pp_status : Z;
  pp_body : ProxyBody
}.

(** What the handler leaves behind: its requests with their outcomes,
    the delays it slept, whether its 30 second timeout is still pending,
    and the number of its [console.warn] lines (its other console lines
    are left out). *)
Record Run : Type := mkRun {
  requests : list (ProxyUpstream * Attempt);
  slept : list Z;
  timeout_pending : bool;
  warnings : nat
}.

Definition start : Run :=
  {| requests := []; slept := []; timeout_pending := false; warnings := 0 |}.

Inductive Result (A : Type) : Type :=
| Done (a : A)
| Raise (e : Raised).
Arguments Done {A} a.
Arguments Raise {A} e.

Definition P (A : Type) : Type := Run -> Result A * Run.

Definition pret {A} (a : A) : P A := fun s => (Done a, s).

Definition pbind {A B} (m : P A) (k : A -> P B) : P B :=
  fun s =>
    match m s with
    | (Done a, s') => k a s'
    | (Raise e, s') => (Raise e, s')
    end.

Definition praise {A} (e : Raised) : P A := fun s => (Raise e, s).

Definition ptry {A} (body : P A) (handler : Raised -> P A) : P A :=
  fun s =>
    match body s with
    | (Done a, s') => (Done a, s')
    | (Raise e, s') => handler e s'
    end.

Definition pcall {A} (r : Raised + A) : P A :=
  match r with
  | inl e => praise e
  | inr a => pret a
  end.

Declare Scope proxy_scope.
Delimit Scope proxy_scope with proxy.
Bind Scope proxy_scope with P.
Notation "x <- m ;; k" := (pbind m (fun x => k))
  (at level 100, m at next level, right associativity) : proxy_scope.
Notation "m ;; k" := (pbind m (fun _ => k))
  (at level 100, right associativity) : proxy_scope.
Local Open Scope proxy_scope.

Definition sleep (ms : Z) : P unit :=
  fun s => (Done tt, {| requests := requests s; slept := (slept s ++ [ms])%list;
                        timeout_pending := timeout_pending s; warnings := warnings s |}).

Definition warn : P unit :=
  fun s => (Done tt, {| requests := requests s; slept := slept s;
                        timeout_pending := timeout_pending s;
                        warnings := S (warnings s) |}).

(** [setTimeout(() => controller.abort(), 30000)] and [clearTimeout]. *)
Definition set_timeout (pending : bool) : P unit :=
  fun s => (Done tt, {| requests := requests s; slept := slept s;
                        timeout_pending := pending; warnings := warnings s |}).

Section Route.

Variable env : Env.

(** The backend: what the n-th request of the call meets. A request that
    the timeout aborts is one that fails with an [AbortError]. *)
Variable backend : nat -> Attempt.

(** The error [NextResponse.json] throws on a status that a response
    with a body cannot carry. *)
Variable invalid_status : Z -> Raised.

(** The message of the [TypeError] of calling [substring] on a value
    that has no such method. *)
Variable not_a_function : string.

Definition fetch (req : ProxyUpstream) : P BackendReply :=
  fun s =>
    let out := backend (length (requests s)) in
    let s' := {| requests := (requests s ++ [(req, out)])%list; slept := slept s;
                 timeout_pending := timeout_pending s; warnings := warnings s |} in
    match out with
    | Failed e => (Raise e, s')
    | Answered r => (Done r, s')
    end.

(** [NextResponse.json(body, { status })] *)
Definition reply (body : ProxyBody) (status : Z) : P ProxyReply :=
  if no_body_status status then praise (invalid_status status)
  else pret {| pp_status := status; pp_body := body |}.

Definition maxRetries : nat := 2.

(** How one turn of the [for] loop ends: with [break], or by going on to
    the next attempt. *)
Inductive Turn : Type :=
| Break (response : option BackendReply)
| Next (response : option BackendReply).

(** The loop from [attempt] on, [turns] being the turns left. *)
Fixpoint attempts (req : ProxyUpstream) (turns attempt : nat)
    (response : option BackendReply) : P (option BackendReply) :=
  match turns with
  | O => pret response
  | S turns' =>
      turn <- ptry
                ((if (0 <? attempt)%nat then sleep (1000 * Z.of_nat attempt) else pret tt) ;;
                 r <- fetch req ;;
                 if br_ok r || (negb (br_status r =? 502) && negb (br_status r =? 503)) then
                   pret (Break (Some r))
                 else if (attempt <? maxRetries)%nat then
                   warn ;; pret (Next (Some r))
                 else
                   pret (Next (Some r)))
                (fun fetchError =>
                   if (attempt <? maxRetries)%nat then
                     warn ;; pret (Next response)
                   else
                     praise fetchError) ;;
      match turn with
      | Break r => pret r
      | Next r => attempts req turns' (S attempt) r
      end
  end.

(** [data.message]: throws on [null]. *)
Definition view (d : JsonView) : P JsonView :=
  if is_null d then
    praise (RaisedError "TypeError" "Cannot read properties of null (reading 'message')")
  else pret d.

(** [errorText.substring(0, 200)], which the route only logs: it
    throws when [errorText] is not a string. *)
Definition substring (errorText : JsonProperty) : P string :=
  match errorText with
  | StringValue s => pret s
  | _ => praise (RaisedError "TypeError" not_a_function)
  end.

Definition unavailable : string :=
  "백엔드 서버에 연결할 수 없습니다. 서버가 다운되었거나 네트워크 문제가 있을 수 있습니다.".

Definition backend_error (status : Z) : string :=
  "백엔드 서버 오류 (" ++ TokenService.number_to_string status ++ ")".

Definition POST (request : ProxyRequest) : P ProxyReply :=
  let apiUrl := NEXT_PUBLIC_API_URL env in
  let apiUrl :=
    if truthy_opt apiUrl && negb (startsWith (template apiUrl) "http://")
       && negb (startsWith (template apiUrl) "https://")
    then Some ("https://" ++ template apiUrl) else apiUrl in
  let backendUrl := template_undefined apiUrl ++ "/api/auth/google/auth-url" in
  ptry
    (body <- ptry
               (let contentType := pr_content_type request in
                if truthy_opt contentType
                   && includes (template contentType) "application/json" then
                  text <- pcall (pr_text request) ;;
                  if truthy text then pcall (pr_parse request text) else pret empty_object
                else pret empty_object)
               (fun e => pret empty_object) ;;
     set_timeout true ;;
     ptry
       (response <- attempts {| pu_url := backendUrl;
                                pu_method := "POST";
                                pu_headers := [ ("Content-Type", "application/json");
                                                ("Accept", "application/json");
                                                ("User-Agent", "Minsol-Frontend/1.0") ];
                                pu_body := body |}
                             (S maxRetries) 0 None ;;
        set_timeout false ;;
        match response with
        | None => praise (RaisedError "Error" "백엔드 서버에 연결할 수 없습니다.")
        | Some response =>
            if negb (br_ok response) then
              errorText <- ptry
                             (let contentType := br_content_type response in
                              if truthy_opt contentType
                                 && includes (template contentType) "application/json" then
                                errorData <- pcall (br_json response) ;;
                                errorData <- view errorData ;;
                                pret (or_property
                                        (or_property (v_message errorData)
                                                     (v_error errorData))
                                        (StringValue (v_stringified errorData)))
                              else
                                let errorText := match br_text response with
                                                 | inl _ => ""
                                                 | inr t => t
                                                 end in
                                if includes errorText "<html>" || includes errorText "502" then
                                  pret (StringValue unavailable)
                                else pret (StringValue errorText))
                             (fun e =>
                                pret (StringValue (backend_error (br_status response)))) ;;
              errorText <- substring errorText ;;
              let statusCode := if br_status response =? 502 then 503 else br_status response in
              reply (Failure (if statusCode =? 502 then "Bad Gateway"
                              else "Backend error: "
                                   ++ TokenService.number_to_string (br_status response))
                             (if truthy errorText then errorText
                              else backend_error (br_status response))
                             (Some (br_status response)))
                    statusCode
            else
              data <- pcall (br_json response) ;;
              reply (Forwarded data) 200
        end)
       (fun fetchError =>
          set_timeout false ;;
          if is_error fetchError && String.eqb (name_or fetchError "") "AbortError" then
            reply (Failure "요청 타임아웃" "백엔드 서버 응답 시간이 초과되었습니다." None) 504
          else praise fetchError))
    (fun error =>
       let errorMessage := raised_message_or error "알 수 없는 오류" in
       let errorName := name_or error "Unknown" in
       if String.eqb errorName "TypeError" && includes errorMessage "fetch" then
         reply (Failure "네트워크 에러"
                        ("백엔드 서버에 연결할 수 없습니다. (" ++ backendUrl ++ ")") None)
               503
       else
         reply (Failure "서버 오류"
                        (if truthy errorMessage then errorMessage
                         else "알 수 없는 오류가 발생했습니다.") None)
               500).

End Route.

End AuthUrlProxy.

Module AuthUrlProxySpec.
Import Ascii Js JsString Server AuthUrlProxy.

(** An attempt after which the loop stops: a success, or any answer but
    502 and 503. *)
Definition stops (a : Attempt) : bool :=
  match a with
  | Answered r => br_ok r || (negb (br_status r =? 502) && negb (br_status r =? 503))
  | Failed _ => false
  end.

(** The number of requests the backend makes the route send. *)
Definition tries (backend : nat -> Attempt) : nat :=
  if stops (backend 0%nat) then 1
  else if stops (backend 1%nat) then 2
  else 3.

(** The state of the call when the loop has sent [k] requests. *)
Definition looped (backend : nat -> Attempt) (req : ProxyUpstream) (k : nat) : Run :=
  {| requests := map (fun i => (req, backend i)) (seq 0 k);
     slept := firstn (k - 1) [1000; 2000];
     timeout_pending := true;
     warnings := (k - 1)%nat |}.

Definition loop_end (a : Attempt) : Result (option BackendReply) :=
  match a with
  | Failed e => Raise e
  | Answered r => Done (Some r)
  end.

(** The request the route sends, for a body [b]. *)
Definition upstream_request (env : Env) (b : JsonView) : ProxyUpstream :=
  let apiUrl := NEXT_PUBLIC_API_URL env in
  let apiUrl :=
    if truthy_opt apiUrl && negb (startsWith (template apiUrl) "http://")
       && negb (startsWith (template apiUrl) "https://")
    then Some ("https://" ++ template apiUrl) else apiUrl in
  {| pu_url := template_undefined apiUrl ++ "/api/auth/google/auth-url";
     pu_method := "POST";
     pu_headers := [ ("Content-Type", "application/json");
                     ("Accept", "application/json");
                     ("User-Agent", "Minsol-Frontend/1.0") ];
     pu_body := b |}.

(** The body the route forwards for a request. *)
Definition forwarded_body (request : ProxyRequest) : JsonView :=
  if truthy_opt (pr_content_type request)
     && includes (template (pr_content_type request)) "application/json" then
    match pr_text request with
    | inl _ => empty_object
    | inr text =>
        if truthy text then
          match pr_parse request text with
          | inl _ => empty_object
          | inr b => b
          end
        else empty_object
    end
  else empty_object.

(** The [errorText] the route builds for a failure [r] of the backend. *)
Definition error_text (r : BackendReply) : JsonProperty :=
  if truthy_opt (br_content_type r)
     && includes (template (br_content_type r)) "application/json" then
    match br_json r with
    | inl _ => StringValue (backend_error (br_status r))
    | inr d =>
        if is_null d then StringValue (backend_error (br_status r))
        else or_property (or_property (v_message d) (v_error d))
                         (StringValue (v_stringified d))
    end
  else
    let text := match br_text r with inl _ => "" | inr t => t end in
    if includes text "<html>" || includes text "502" then StringValue unavailable
    else StringValue text.

(** The reply of the outer [catch] block to a thrown [e]. *)
Definition caught (env : Env) (e : Raised) : ProxyReply :=
  let apiUrl := NEXT_PUBLIC_API_URL env in
  let apiUrl :=
    if truthy_opt apiUrl && negb (startsWith (template apiUrl) "http://")
       && negb (startsWith (template apiUrl) "https://")
    then Some ("https://" ++ template apiUrl) else apiUrl in
  let backendUrl := template_undefined apiUrl ++ "/api/auth/google/auth-url" in
  if String.eqb (name_or e "Unknown") "TypeError"
     && includes (raised_message_or e "알 수 없는 오류") "fetch" then
    {| pp_status := 503;
       pp_body := Failure "네트워크 에러"
                          ("백엔드 서버에 연결할 수 없습니다. (" ++ backendUrl ++ ")") None |}
  else
    {| pp_status := 500;
       pp_body := Failure "서버 오류"
                          (if truthy (raised_message_or e "알 수 없는 오류")
                           then raised_message_or e "알 수 없는 오류"
                           else "알 수 없는 오류가 발생했습니다.") None |}.

(** Sample request and backends. *)
Definition plain_request : ProxyRequest :=
  {| pr_content_type := None; pr_text := inr ""; pr_parse := fun _ => inr empty_object |}.

Definition gateway_down : BackendReply :=
  {| br_status := 502; br_content_type := Some "text/html";
     br_json := inl (RaisedError "SyntaxError" "Unexpected token <");
     br_text := inr "<html>502 Bad Gateway</html>" |}.

Definition always_502 : nat -> Attempt := fun _ => Answered gateway_down.

Definition timed_out : nat -> Attempt :=
  fun _ => Failed (RaisedError "AbortError" "This operation was aborted").

Definition range_error : Z -> Raised :=
  fun _ => RaisedError "RangeError" "init[status] must be in the range of 200 to 599".

(** A text between double quotes. *)
Definition quoted (s : string) : string :=
  String (ascii_of_nat 34) (s ++ String (ascii_of_nat 34) EmptyString).

Definition no_substring : string := "errorText.substring is not a function".

(** A 400 of the backend whose JSON body carries a number as message. *)
Definition coded_failure : BackendReply :=
  {| br_status := 400; br_content_type := Some "application/json";
     br_json := inr {| is_null := false; v_message := Truthy; v_error := Falsy;
                       v_stringified := "{" ++ quoted "message" ++ ":5}" |};
     br_text := inl RaisedOther |}.

End AuthUrlProxySpec.

(** * Properties of the store *)

Module AuthStoreFacts.
Import Js Http AuthStore AuthStoreSpec.

Lemma truthy_nonempty (s : string) : truthy s = true <-> s <> "".
Proof. destruct s; simpl; split; congruence. Qed.


(** ** The async actions in closed form *)

Ltac unfold_actions :=
  unfold run, result, exec, refreshAccessToken, validateToken, logout, login,
    setAccessToken, setUser, clearError, setError, setLoading,
    try_catch, bind, ret, throw, get, set_, fetch, fetch_catch, json,
    read_accessToken, console_error, log_exchange, merge.

Lemma refreshAccessToken_run (net : Net) (w : World) :
  refreshAccessToken net w
  = refreshed w (net (length (exchanges w)) refresh_request).
Proof.
  unfold refreshed, refresh_reply. unfold_actions. cbn.
  destruct (net (length (exchanges w)) refresh_request) as [e | r]; cbn.
  - rewrite <- app_assoc. reflexivity.
  - destruct (ok r); cbn; [| rewrite <- app_assoc; reflexivity].
    destruct (body r) as [e | [| [t |]]]; cbn;
      try (rewrite <- app_assoc; reflexivity).
    destruct (truthy t); cbn; rewrite <- app_assoc; reflexivity.
Qed.

Lemma refreshAccessToken_returns (net : Net) (w : World) :
  exists b, fst (refreshAccessToken net w) = Returned b.
Proof.
  rewrite refreshAccessToken_run. unfold refreshed.
  destruct (refresh_reply _); eexists; reflexivity.
Qed.

Lemma validateToken_run (net : Net) (w : World) :
  validateToken net w
  = if truthy_opt (accessToken (store w)) then
      let out := net (length (exchanges w)) (validate_request (accessToken (store w))) in
      let w1 := validating w out in
      match out with
      | Rejected e =>
          refreshAccessToken net (validation_rejected w1 (message_or e "토큰 검증 실패"))
      | Resolved r =>
          if ok r then (Returned true, validation_fulfilled w1)
          else if status r =? 401 then refreshAccessToken net w1
          else refreshAccessToken net (validation_rejected w1 "토큰 검증 실패")
      end
    else refreshAccessToken net w.
Proof.
  unfold validateToken at 1. unfold bind at 1. unfold get at 1.
  destruct (truthy_opt (accessToken (store w))); cbn [negb]; [| reflexivity].
  unfold try_catch at 1. unfold bind at 1. unfold set_ at 1.
  unfold bind at 1. unfold fetch at 1. cbn [exchanges store].
  fold (validating w (net (length (exchanges w)) (validate_request (accessToken (store w))))).
  destruct (net (length (exchanges w)) (validate_request (accessToken (store w))))
    as [e | r] eqn:Hout.
  - reflexivity.
  - unfold log_exchange. cbn.
    destruct (ok r); [reflexivity |].
    destruct (status r =? 401).
    + destruct (refreshAccessToken_returns net (validating w (Resolved r))) as [b Hb].
      unfold validating in *. cbn in Hb |- *.
      destruct (refreshAccessToken net _) as [o w2].
      cbn in Hb. subst o. reflexivity.
    + reflexivity.
Qed.

(** ** refreshAccessToken *)





(** ** validateToken *)

(** C3. With no access token in the store, [validateToken()] is
    [refreshAccessToken()]: same result, same final world; the one
    request it sends is the refresh request, none goes to the validate
    endpoint. *)
Theorem validateToken_without_token (net : Net) (w : World) :
  accessToken (store w) = None ->
  run (validateToken net) w = run (refreshAccessToken net) w /\
  exchanges (exec (validateToken net) w)
  = (exchanges w ++ [(refresh_request, net (length (exchanges w)) refresh_request)])%list.
Proof.
  intros Hnone. unfold run, exec.
  rewrite validateToken_run, Hnone. cbn [truthy_opt].
  split; [reflexivity |].
  rewrite refreshAccessToken_run. unfold refreshed.
  destruct (refresh_reply _); reflexivity.
Qed.

Lemma validateToken_without_token_witness :
  run (validateToken net_down) fresh = run (refreshAccessToken net_down) fresh /\
  exchanges (exec (validateToken net_down) fresh)
  = (exchanges fresh
     ++ [(refresh_request, net_down (length (exchanges fresh)) refresh_request)])%list.
Proof.
  apply (validateToken_without_token net_down fresh). reflexivity.
Defined.

(** The same holds for the empty string, which [!accessToken] does not
    tell from [null]: no validation request is sent for it either. *)
Lemma validateToken_empty_token (net : Net) (w : World) :
  accessToken (store w) = Some "" ->
  run (validateToken net) w = run (refreshAccessToken net) w.
Proof.
  intros Hempty. unfold run. rewrite validateToken_run, Hempty. reflexivity.
Qed.

Lemma refreshAccessToken_exchanges (net : Net) (w : World) :
  exchanges (snd (refreshAccessToken net w))
  = (exchanges w ++ [(refresh_request, net (length (exchanges w)) refresh_request)])%list.
Proof.
  rewrite refreshAccessToken_run. unfold refreshed.
  destruct (refresh_reply _); reflexivity.
Qed.

Lemma exchanged_app (w w' : World) (xs : list (Request * FetchOutcome)) :
  exchanges w' = (exchanges w ++ xs)%list -> exchanged w w' = xs.
Proof.
  intros H. unfold exchanged. rewrite H.
  rewrite skipn_app, skipn_all, Nat.sub_diag. reflexivity.
Qed.




(** A token that is the empty string is not [null], but [!accessToken]
    holds of it: the validate endpoint is not asked at all, the one
    request of the call is the refresh request. *)
Lemma validateToken_empty_token_asks_refresh :
  let w := signed_in_empty in
  let w' := exec (validateToken net_ok_empty) w in
  accessToken (store w) = Some "" /\
  exchanged w w'
  = [(refresh_request,
      Resolved {| status := 200; body := JsonValue (JsonObject None) |})] /\
  existsb validate_success (exchanged w w') = false.
Proof.
  cbv zeta. repeat split.
Qed.



(** ** login, logout, setAccessToken *)

Lemma logout_store (net : Net) (w : World) :
  store (exec (logout net) w) = initialState.
Proof.
  unfold exec, logout, bind, fetch_catch, console_error, set_, log_exchange.
  destruct (net (length (exchanges w)) logout_request); reflexivity.
Qed.

(** C4. From any state, with any token and any user, [login(token, user)]
    followed by [logout()] leaves the store in the initial empty state. *)
Theorem login_then_logout (net : Net) (w : World) (token : string) (u : User) :
  store (exec (logout net) (exec (login token u) w)) = initialState /\
  initialState = {| accessToken := None; user := None; isAuthenticated := false;
                    isLoading := false; error := None |}.
Proof.
  split; [apply logout_store | reflexivity].
Qed.

(** C5. [logout()] twice leaves the same store as [logout()] once: the
    empty one. *)
Theorem logout_idempotent (net : Net) (w : World) :
  store (exec (logout net) (exec (logout net) w)) = store (exec (logout net) w) /\
  store (exec (logout net) w) = initialState.
Proof.
  rewrite !logout_store. split; reflexivity.
Qed.

(** C10. [setAccessToken(token)] stores the token and sets
    [isAuthenticated] to its truthiness: [true] for every non-empty
    string, [false] for the empty one, which is stored all the same.
    [login(token, user)] sets [isAuthenticated = true] whatever the
    token, the empty string included. *)
Theorem setAccessToken_truthiness (w : World) (token : string) (u : User) :
  accessToken (store (exec (setAccessToken token) w)) = Some token /\
  isAuthenticated (store (exec (setAccessToken token) w)) = negb (String.eqb token "") /\
  accessToken (store (exec (setAccessToken "") w)) = Some "" /\
  isAuthenticated (store (exec (setAccessToken "") w)) = false /\
  accessToken (store (exec (login token u) w)) = Some token /\
  isAuthenticated (store (exec (login token u) w)) = true /\
  isAuthenticated (store (exec (login "" u) w)) = true.
Proof.
  cbn. repeat split. destruct token; reflexivity.
Qed.

(** ** The invariant of the store *)

Lemma refreshAccessToken_token_held (net : Net) (w : World) :
  token_held (store (snd (refreshAccessToken net w))).
Proof.
  rewrite refreshAccessToken_run. unfold refreshed, token_held.
  destruct (refresh_reply _); cbn; [discriminate | discriminate].
Qed.

Lemma validateToken_token_held (net : Net) (w : World) :
  token_held (store w) -> token_held (store (snd (validateToken net w))).
Proof.
  intros Hw. rewrite validateToken_run.
  destruct (truthy_opt (accessToken (store w)));
    [| apply refreshAccessToken_token_held].
  cbv zeta. destruct (net _ _) as [e | r]; [apply refreshAccessToken_token_held |].
  destruct (ok r); [exact Hw |].
  destruct (status r =? 401); apply refreshAccessToken_token_held.
Qed.

Lemma perform_token_held (net : Net) (op : Op) (w : World) :
  token_held (store w) -> token_held (store (perform net op w)).
Proof.
  intros Hw. destruct op; cbn [perform]; unfold exec.
  - cbn. discriminate.
  - exact Hw.
  - cbn. discriminate.
  - fold (exec (logout net) w). rewrite logout_store. discriminate.
  - exact Hw.
  - exact Hw.
  - exact Hw.
  - apply refreshAccessToken_token_held.
  - now apply validateToken_token_held.
Qed.

(** C6. [isAuthenticated = true] implies a non-null [accessToken]: this
    holds of the initial state and every operation of the store keeps
    it; so after any operation, a store without token has
    [isAuthenticated = false]. *)
Theorem token_held_invariant :
  token_held initialState /\
  forall (net : Net) (op : Op) (w : World),
    token_held (store w) ->
    token_held (store (perform net op w)) /\
    (accessToken (store (perform net op w)) = None ->
     isAuthenticated (store (perform net op w)) = false).
Proof.
  split; [discriminate |].
  intros net op w Hw.
  pose proof (perform_token_held net op w Hw) as H.
  split; [exact H |].
  intros Hnone. unfold token_held in H.
  destruct (isAuthenticated (store (perform net op w))); [| reflexivity].
  now destruct H.
Qed.

Lemma token_held_invariant_witness :
  token_held (store (perform net_down RefreshAccessToken signed_in)) /\
  (accessToken (store (perform net_down RefreshAccessToken signed_in)) = None ->
   isAuthenticated (store (perform net_down RefreshAccessToken signed_in)) = false).
Proof.
  apply (proj2 token_held_invariant net_down RefreshAccessToken signed_in).
  cbn. discriminate.
Defined.

(** The invariant holds in every state the operations can reach. *)
Lemma token_held_reachable (net : Net) (ops : list Op) (w : World) :
  token_held (store w) ->
  token_held (store (fold_left (fun w op => perform net op w) ops w)).
Proof.
  revert w. induction ops as [| op ops IH]; intros w Hw; cbn; [exact Hw |].
  apply IH. now apply perform_token_held.
Qed.

End AuthStoreFacts.

(** * Properties of the store under persist *)

Module PersistedStoreFacts.
Import Js Http AuthStore AuthPersist AuthStoreSpec AuthStoreMoreSpec PersistedStoreSpec.

Ltac unfold_persisted :=
  unfold run, result, exec,
    PersistedStore.refreshAccessToken, PersistedStore.validateToken,
    PersistedStore.logout, PersistedStore.login, PersistedStore.setAccessToken,
    PersistedStore.setUser, PersistedStore.clearError, PersistedStore.setError,
    PersistedStore.setLoading, PersistedStore.set_, PersistedStore.setItem,
    try_catch, bind, ret, throw, get, set_, fetch, fetch_catch, json,
    read_accessToken, console_error, log_exchange, merge.

(** One case distinction of a run, innermost first. *)
Ltac branch :=
  match goal with
  | |- context [match ?storage ?n ?p with Some _ => _ | None => _ end] =>
      destruct (storage n p) eqn:?
  | |- context [match ?net ?n ?r with Rejected _ => _ | Resolved _ => _ end] =>
      destruct (net n r) eqn:?
  | |- context [if negb (ok ?r) then _ else _] => destruct (ok r) eqn:?
  | |- context [if ok ?r then _ else _] => destruct (ok r) eqn:?
  | |- context [if status ?r =? 401 then _ else _] => destruct (status r =? 401) eqn:?
  | |- context [match body ?r with JsonRejects _ => _ | JsonValue _ => _ end] =>
      destruct (body r) as [? | [| [? |]]] eqn:?
  | |- context [if truthy ?t then _ else _] => destruct (truthy t) eqn:?
  | |- context [if negb (truthy_opt ?t) then _ else _] => destruct (truthy_opt t) eqn:?
  end; cbn.

Ltac branches := cbn; repeat branch.

(** The calls of a nested action [f], each with the fact [H] about it. *)
Ltac calls f H :=
  repeat match goal with
  | |- context [f ?w] =>
      let Hw := fresh "Hcall" in
      pose proof (H w) as Hw; cbn in Hw;
      destruct (f w) as [[? | ?] ?] eqn:?; cbn in Hw |- *; repeat branch
  end.

(** A leaf of the case analysis of the requests of [validateToken()]. *)
Ltac requests_leaf :=
  repeat match goal with
  | H : exists k, _ |- _ => destruct H as (? & ? & ?)
  end;
  repeat match goal with
  | Hk : (?k <= 1)%nat |- _ => destruct k as [| [| ?]]; [ | | lia]; clear Hk
  end;
  unfold exchanged, refreshes in *; cbn [seq map exchanges snd] in *;
  repeat match goal with
  | H : exchanges ?x = _ |- _ => is_var x; rewrite ?H in *; clear H
  end;
  rewrite ?length_app in *; cbn [length] in *; rewrite ?Nat.add_1_r, ?Nat.add_0_r, ?app_nil_r in *;
  rewrite <- ?app_assoc;
  first [ rewrite skipn_all | rewrite skipn_app, skipn_all, Nat.sub_diag ];
  cbn [skipn app];
  first [ exists 0%nat; left; split; [reflexivity | lia]
        | exists 1%nat; left; split; [reflexivity | lia]
        | exists 0%nat; right; split; [reflexivity | lia]
        | exists 1%nat; right; split; [reflexivity | lia]
        | exists 2%nat; right; split; [reflexivity | lia] ].

Lemma exchanged_self (w w' : World) :
  exchanges w' = exchanges w -> exchanged w w' = [].
Proof.
  intros H. apply AuthStoreFacts.exchanged_app. rewrite H, app_nil_r. reflexivity.
Qed.

Section Store.

Variable storage : PersistedStore.Storage.
Variable net : Net.

(** ** With a storage that accepts every write

    The persisted store is then the store of [AuthStore]. *)

Lemma accepted_sync (w : World) (token : string) (u : User) (msg : string) (b : bool) :
  accepts storage ->
  PersistedStore.setAccessToken storage token w = setAccessToken token w /\
  PersistedStore.setUser storage u w = setUser u w /\
  PersistedStore.login storage token u w = login token u w /\
  PersistedStore.clearError storage w = clearError w /\
  PersistedStore.setError storage msg w = setError msg w /\
  PersistedStore.setLoading storage b w = setLoading b w /\
  PersistedStore.logout storage net w = logout net w.
Proof.
  intros Hacc. unfold_persisted. unfold setAccessToken, setUser, login, clearError,
    setError, setLoading, logout. unfold_persisted. cbn. rewrite !Hacc.
  repeat split. destruct (net _ _); cbn; rewrite Hacc; reflexivity.
Qed.

Lemma accepted_refreshAccessToken (w : World) :
  accepts storage ->
  PersistedStore.refreshAccessToken storage net w = refreshAccessToken net w.
Proof.
  intros Hacc. unfold refreshAccessToken. unfold_persisted.
  branches; rewrite ?Hacc in *; try congruence; reflexivity.
Qed.

Lemma accepted_validateToken (w : World) :
  accepts storage ->
  PersistedStore.validateToken storage net w = validateToken net w.
Proof.
  intros Hacc.
  pose proof (fun w => accepted_refreshAccessToken w Hacc) as Hr.
  unfold PersistedStore.validateToken, validateToken.
  remember (PersistedStore.refreshAccessToken storage net) as f eqn:Hf. clear Hf.
  remember (refreshAccessToken net) as g eqn:Hg. clear Hg.
  unfold_persisted. cbn.
  repeat first
    [ rewrite Hr
    | branch
    | match goal with |- context [g ?w] => destruct (g w) as [[? | ?] ?]; cbn end ];
    rewrite ?Hacc in *; try congruence; reflexivity.
Qed.

(** ** refreshAccessToken, whatever the storage does *)

Lemma refreshAccessToken_cleared (w : World) :
  let r := PersistedStore.refreshAccessToken storage net w in
  fst r <> Returned true ->
  accessToken (store (snd r)) = None /\
  isAuthenticated (store (snd r)) = false /\
  isLoading (store (snd r)) = false /\
  exists msg, error (store (snd r)) = Some msg.
Proof.
  cbv zeta. unfold_persisted.
  branches; intros H; try congruence; repeat split; eexists; reflexivity.
Qed.

Lemma refreshAccessToken_true (w : World) :
  fst (PersistedStore.refreshAccessToken storage net w) = Returned true ->
  exists t, refresh_reply (net (length (exchanges w)) refresh_request) = inl t.
Proof.
  unfold refresh_reply. unfold_persisted.
  branches; intros H; try discriminate H; eexists; reflexivity.
Qed.

Lemma refreshAccessToken_result (w : World) :
  let r := fst (PersistedStore.refreshAccessToken storage net w) in
  (exists b, r = Returned b) \/ thrown_by storage r.
Proof.
  cbv zeta. unfold thrown_by. unfold_persisted.
  branches;
    try (left; eexists; reflexivity);
    right; do 3 eexists; (split; [eassumption | reflexivity]).
Qed.

Lemma refreshAccessToken_isLoading (w : World) :
  isLoading (store (snd (PersistedStore.refreshAccessToken storage net w))) = false.
Proof. unfold_persisted. branches; reflexivity. Qed.

Lemma refreshAccessToken_user (w : World) :
  user (store (snd (PersistedStore.refreshAccessToken storage net w))) = user (store w).
Proof. unfold_persisted. branches; reflexivity. Qed.

(** The request goes out exactly when the storage accepted the write of
    the pending state. *)
Lemma refreshAccessToken_request (w : World) :
  exchanges (snd (PersistedStore.refreshAccessToken storage net w))
  = match storage (length (actions w)) (partialize (store w)) with
    | None =>
        (exchanges w ++ [(refresh_request, net (length (exchanges w)) refresh_request)])%list
    | Some _ => exchanges w
    end.
Proof.
  unfold_persisted. cbn.
  change (partialize _) with (partialize (store w)) at 1.
  destruct (storage (length (actions w)) (partialize (store w))) eqn:Hs; cbn.
  - branches; reflexivity.
  - branches; reflexivity.
Qed.

(** C1, as the code has it. When the refresh fails (the request is
    rejected, the response is not a success, or its body has no access
    token), and whenever the call does not return [true], the store ends
    with [accessToken = null], [isAuthenticated = false],
    [isLoading = false] and an error message. What the caller gets then
    depends on the storage: the [set] of the [catch] block is not
    guarded, so the call returns [false] if the storage accepts the
    write of that state and throws what the storage threw if it does not.
    With a storage that accepts every write the call always returns a
    boolean. *)
Theorem refreshAccessToken_failure (w : World) :
  let out := net (length (exchanges w)) refresh_request in
  let r := result (PersistedStore.refreshAccessToken storage net) w in
  let w' := exec (PersistedStore.refreshAccessToken storage net) w in
  (r <> Returned true ->
   accessToken (store w') = None /\
   isAuthenticated (store w') = false /\
   isLoading (store w') = false /\
   exists msg, error (store w') = Some msg) /\
  (refresh_fails out = true ->
   r = match storage (S (length (actions w))) (cleared (store w)) with
       | None => Returned false
       | Some e => Threw e
       end) /\
  (accepts storage -> exists b, r = Returned b).
Proof.
  cbv zeta. split; [| split].
  - apply refreshAccessToken_cleared.
  - unfold refresh_fails, cleared. unfold_persisted.
    branches; intros H; try discriminate H;
      rewrite ?length_app in *; cbn [length] in *; rewrite ?Nat.add_1_r in *;
      unfold partialize in *; cbn [accessToken user isAuthenticated] in *;
      congruence.
  - intros Hacc. unfold result. rewrite accepted_refreshAccessToken by exact Hacc.
    apply AuthStoreFacts.refreshAccessToken_returns.
Qed.

(** X1. Neither async action leaves the loading flag set, and neither
    throws anything of its own: [refreshAccessToken()] and
    [validateToken()] end with [isLoading = false] and return a boolean,
    or throw what the storage threw at a write; with a storage that
    accepts every write they always return a boolean. *)
Theorem async_actions_settle (w : World) :
  let refresh := PersistedStore.refreshAccessToken storage net in
  let validate := PersistedStore.validateToken storage net in
  isLoading (store (exec refresh w)) = false /\
  isLoading (store (exec validate w)) = false /\
  ((exists b, result refresh w = Returned b) \/ thrown_by storage (result refresh w)) /\
  ((exists b, result validate w = Returned b) \/ thrown_by storage (result validate w)) /\
  (accepts storage ->
   (exists b, result refresh w = Returned b) /\
   (exists b, result validate w = Returned b)).
Proof.
  cbv zeta. unfold result, exec.
  split; [apply refreshAccessToken_isLoading |].
  split; [| split; [apply refreshAccessToken_result | split]].
  - pose proof refreshAccessToken_isLoading as Hr.
    unfold PersistedStore.validateToken.
    remember (PersistedStore.refreshAccessToken storage net) as f eqn:Hf. clear Hf.
    unfold_persisted. branches; calls f Hr; try reflexivity; assumption.
  - pose proof refreshAccessToken_result as Hr.
    unfold PersistedStore.validateToken.
    remember (PersistedStore.refreshAccessToken storage net) as f eqn:Hf. clear Hf.
    unfold thrown_by in *. unfold_persisted.
    branches; calls f Hr;
      try (left; eexists; reflexivity);
      try (right; do 3 eexists; (split; [eassumption | reflexivity]));
      try assumption;
      match goal with
      | H : (exists b, Threw _ = Returned b) \/ _ |- _ =>
          destruct H as [[? H] | H]; [discriminate H | right; exact H]
      end.
  - intros Hacc.
    rewrite accepted_refreshAccessToken, accepted_validateToken by exact Hacc.
    split; [apply AuthStoreFacts.refreshAccessToken_returns |].
    rewrite AuthStoreFacts.validateToken_run.
    destruct (truthy_opt (accessToken (store w)));
      [| apply AuthStoreFacts.refreshAccessToken_returns].
    cbv zeta. destruct (net _ _) as [e | r];
      [apply AuthStoreFacts.refreshAccessToken_returns |].
    destruct (ok r); [eexists; reflexivity |].
    destruct (status r =? 401); apply AuthStoreFacts.refreshAccessToken_returns.
Qed.

(** X2. A successful refresh. [refreshAccessToken()] returns [true] only
    after one request that the refresh endpoint answered with a success,
    and the store then holds a token (not [null]),
    [isAuthenticated = true], no error, and the user it had before. It
    does return [true], and stores the token of the answer, when the
    answer is a success with a non-empty string as [accessToken] and the
    storage accepts the two writes of the call. *)
Theorem refreshAccessToken_success (w : World) :
  let out := net (length (exchanges w)) refresh_request in
  let n := length (actions w) in
  let r := result (PersistedStore.refreshAccessToken storage net) w in
  let w' := exec (PersistedStore.refreshAccessToken storage net) w in
  (r = Returned true ->
   (exists response, out = Resolved response /\ ok response = true) /\
   exchanged w w' = [(refresh_request, out)] /\
   accessToken (store w') <> None /\
   isAuthenticated (store w') = true /\
   error (store w') = None /\
   user (store w') = user (store w)) /\
  (forall t,
     refresh_granted out t ->
     storage n (partialize (store w)) = None ->
     storage (S n) {| saved_accessToken := Some t;
                      saved_user := user (store w);
                      saved_isAuthenticated := true |} = None ->
     r = Returned true /\
     store w' = {| accessToken := Some t; user := user (store w);
                   isAuthenticated := true; isLoading := false; error := None |}).
Proof.
  cbv zeta. split.
  - unfold exchanged. unfold_persisted.
    branches; intros Hr; try discriminate Hr.
    rewrite skipn_app, skipn_all, Nat.sub_diag. cbn.
    repeat split; try (eexists; split; [reflexivity | assumption]).
    discriminate.
  - intros t (response & Hout & Hok & Hbody & Hne) Hs1 Hs2.
    apply AuthStoreFacts.truthy_nonempty in Hne.
    unfold_persisted.
    branches;
      rewrite ?length_app in *; cbn [length] in *; rewrite ?Nat.add_1_r in *;
      unfold partialize in *; cbn [accessToken user isAuthenticated] in *;
      try congruence; split; congruence.
Qed.

(** X3. What the async actions send. [refreshAccessToken()] sends the
    refresh request once, or nothing when the storage throws at its first
    write. [validateToken()] sends at most one validate request, the
    first of the call, and after it only refresh requests, two at most;
    with a storage that accepts every write it sends one or two requests:
    the refresh request alone, or the validate request alone or followed
    by the refresh request. *)
Theorem async_actions_requests (w : World) :
  let n := length (exchanges w) in
  let v := (validate_request (accessToken (store w)),
            net n (validate_request (accessToken (store w)))) in
  let xr := exchanged w (exec (PersistedStore.refreshAccessToken storage net) w) in
  let xv := exchanged w (exec (PersistedStore.validateToken storage net) w) in
  xr = match storage (length (actions w)) (partialize (store w)) with
       | None => [(refresh_request, net n refresh_request)]
       | Some _ => []
       end /\
  (exists k,
     (xv = refreshes net n k /\ (k <= 1)%nat) \/
     (xv = v :: refreshes net (S n) k /\ (k <= 2)%nat)) /\
  (accepts storage ->
   xv = [(refresh_request, net n refresh_request)] \/
   xv = [v] \/
   xv = [v; (refresh_request, net (S n) refresh_request)]).
Proof.
  cbv zeta. unfold exec.
  assert (Hr : forall w0,
             exists k,
               (k <= 1)%nat /\
               exchanges (snd (PersistedStore.refreshAccessToken storage net w0))
               = (exchanges w0 ++ refreshes net (length (exchanges w0)) k)%list).
  { intros w0. rewrite refreshAccessToken_request.
    destruct (storage _ _); [exists 0%nat | exists 1%nat];
      (split; [lia |]); cbn; rewrite ?app_nil_r, ?Nat.add_0_r; reflexivity. }
  split; [| split].
  - unfold exchanged. rewrite refreshAccessToken_request.
    destruct (storage _ _);
      [rewrite skipn_all | rewrite skipn_app, skipn_all, Nat.sub_diag]; reflexivity.
  - unfold PersistedStore.validateToken.
    remember (PersistedStore.refreshAccessToken storage net) as f eqn:Hf. clear Hf.
    unfold_persisted. branches; calls f Hr; requests_leaf.
  - intros Hacc. rewrite accepted_validateToken by exact Hacc.
    rewrite AuthStoreFacts.validateToken_run.
    destruct (truthy_opt (accessToken (store w)));
      [| left; apply AuthStoreFacts.exchanged_app,
                 AuthStoreFacts.refreshAccessToken_exchanges].
    cbv zeta. right.
    assert (Hlen : forall out,
               length (exchanges (validating w out)) = S (length (exchanges w))).
    { intros out. cbn [exchanges validating]. rewrite length_app. cbn. lia. }
    assert (Hv : forall out w1,
               exchanges w1 = exchanges (validating w out) ->
               exchanged w (snd (refreshAccessToken net w1))
               = [(validate_request (accessToken (store w)), out);
                  (refresh_request, net (S (length (exchanges w))) refresh_request)]).
    { intros out w1 Hw1. apply AuthStoreFacts.exchanged_app.
      rewrite AuthStoreFacts.refreshAccessToken_exchanges, Hw1, Hlen.
      cbn [exchanges validating]. rewrite <- app_assoc. reflexivity. }
    destruct (net (length (exchanges w)) (validate_request (accessToken (store w))))
      as [e | r] eqn:Hout.
    + right. now apply Hv.
    + destruct (ok r).
      * left. apply AuthStoreFacts.exchanged_app. reflexivity.
      * right. destruct (status r =? 401); now apply Hv.
Qed.

(** X4. [logout()] is best effort towards the server: whatever the
    logout request meets, exactly one request has been sent, the store is
    reset, and a rejected request leaves one line on the error console
    and nothing else. The call returns if the storage accepts the write
    of the empty session, and throws what the storage threw if not, the
    store being reset all the same. *)
Theorem logout_best_effort (w : World) :
  let out := net (length (exchanges w)) logout_request in
  let w' := exec (PersistedStore.logout storage net) w in
  result (PersistedStore.logout storage net) w
  = match storage (length (actions w)) (partialize initialState) with
    | None => Returned tt
    | Some e => Threw e
    end /\
  store w' = initialState /\
  exchanged w w' = [(logout_request, out)] /\
  console w'
  = (console w ++ match out with
                  | Rejected e => [("[Auth Store] 로그아웃 요청 실패:", e)]
                  | Resolved _ => []
                  end)%list.
Proof.
  cbv zeta. unfold exchanged. unfold_persisted. cbn.
  destruct (net (length (exchanges w)) logout_request) as [e | r]; cbn;
    destruct (storage (length (actions w)) _); cbn;
    rewrite skipn_app, skipn_all, Nat.sub_diag, ?app_nil_r; repeat split.
Qed.

End Store.

Lemma refreshAccessToken_failure_witness :
  result (PersistedStore.refreshAccessToken PersistedStore.writable net_down) signed_in
  = Returned false /\
  accessToken
    (store (exec (PersistedStore.refreshAccessToken PersistedStore.writable net_down)
                 signed_in)) = None /\
  isAuthenticated
    (store (exec (PersistedStore.refreshAccessToken PersistedStore.writable net_down)
                 signed_in)) = false /\
  isLoading
    (store (exec (PersistedStore.refreshAccessToken PersistedStore.writable net_down)
                 signed_in)) = false /\
  exists msg,
    error
      (store (exec (PersistedStore.refreshAccessToken PersistedStore.writable net_down)
                   signed_in)) = Some msg.
Proof.
  destruct (refreshAccessToken_failure PersistedStore.writable net_down signed_in)
    as (Hstate & Hfail & _).
  assert (Hr : result (PersistedStore.refreshAccessToken PersistedStore.writable net_down)
                 signed_in = Returned false) by (apply Hfail; reflexivity).
  split; [exact Hr |].
  apply Hstate. rewrite Hr. discriminate.
Defined.

(** C1, as stated, fails. With a storage that refuses every write the
    call sends no request and throws; with one that accepts the write of
    the pending state and refuses the next, the request is sent and
    rejected by the network, a failure of the refresh, and the call
    throws instead of returning [false]. *)
Lemma refreshAccessToken_storage_throws :
  result (PersistedStore.refreshAccessToken full net_down) signed_in
  = Threw quota_exceeded /\
  exchanged signed_in (exec (PersistedStore.refreshAccessToken full net_down) signed_in)
  = [] /\
  let call := PersistedStore.refreshAccessToken (full_after 2) net_down in
  exchanged signed_in (exec call signed_in)
  = [(refresh_request, Rejected (ErrorInstance "Failed to fetch"))] /\
  refresh_fails (net_down (length (exchanges signed_in)) refresh_request) = true /\
  result call signed_in = Threw quota_exceeded /\
  ~ (result call signed_in = Returned false).
Proof.
  cbv zeta. repeat split. discriminate.
Qed.

Lemma async_actions_settle_witness :
  (exists b,
     result (PersistedStore.refreshAccessToken PersistedStore.writable net_expired)
       signed_in = Returned b) /\
  (exists b,
     result (PersistedStore.validateToken PersistedStore.writable net_expired)
       signed_in = Returned b).
Proof.
  apply (async_actions_settle PersistedStore.writable net_expired signed_in).
  intros n p. reflexivity.
Defined.

Lemma refreshAccessToken_success_witness :
  result (PersistedStore.refreshAccessToken (full_after 3) net_expired) signed_in
  = Returned true /\
  store (exec (PersistedStore.refreshAccessToken (full_after 3) net_expired) signed_in)
  = {| accessToken := Some "xyz"; user := Some sample_user;
       isAuthenticated := true; isLoading := false; error := None |}.
Proof.
  apply (proj2 (refreshAccessToken_success (full_after 3) net_expired signed_in) "xyz");
    [| reflexivity | reflexivity].
  exists {| status := 200; body := JsonValue (JsonObject (Some "xyz")) |}.
  repeat split. discriminate.
Defined.

Lemma async_actions_requests_witness :
  let xv := exchanged signed_in
              (exec (PersistedStore.validateToken PersistedStore.writable net_expired)
                    signed_in) in
  let v := (validate_request (Some "abc"),
            Resolved {| status := 401; body := JsonValue JsonNull |}) in
  let r := (refresh_request,
            Resolved {| status := 200; body := JsonValue (JsonObject (Some "xyz")) |}) in
  xv = [r] \/ xv = [v] \/ xv = [v; r].
Proof.
  apply (async_actions_requests PersistedStore.writable net_expired signed_in).
  intros n p. reflexivity.
Defined.

End PersistedStoreFacts.

(** * Properties of the provider *)

Module AuthProviderFacts.
Import AuthStore AuthProvider AuthProviderSpec.

Lemma boot_consistent : consistent boot.
Proof. reflexivity. Qed.

Lemma mount_consistent (b : bool) (p : Page) :
  timers p = ∅ ->
  consistent
    (let '(cs, p') := run_effects effects b p in
     {| page := p'; instance := Some (mkMounted b cs) |}).
Proof.
  intros Hp. destruct b; cbn.
  - exists (next_id p). split; [reflexivity |].
    rewrite Hp. apply insert_empty.
  - split; [reflexivity | exact Hp].
Qed.

Lemma step_consistent (a : App) (e : Event) :
  consistent a -> consistent (step a e).
Proof.
  intros Ha. destruct e as [s | | id]; cbn [step].
  - unfold consistent in Ha.
    destruct (instance a) as [m |] eqn:Hm.
    + destruct (Bool.eqb (deps m) (selectIsAuthenticated s)) eqn:Hdeps.
      * unfold consistent. rewrite Hm. exact Ha.
      * apply mount_consistent.
        destruct (deps m).
        -- destruct Ha as (id & -> & Ht). cbn. rewrite Ht.
           apply delete_singleton_eq.
        -- destruct Ha as (-> & Ht). exact Ht.
    + now apply mount_consistent.
  - unfold consistent in Ha.
    destruct (instance a) as [m |] eqn:Hm.
    + unfold consistent. cbn.
      destruct (deps m).
      * destruct Ha as (id & -> & Ht). cbn. rewrite Ht.
        apply delete_singleton_eq.
      * destruct Ha as (-> & Ht). exact Ht.
    + unfold consistent. rewrite Hm. exact Ha.
  - destruct (timers (page a) !! id) as [[[] ms] |]; [| exact Ha].
    exact Ha.
Qed.

Lemma run_consistent (evs : list Event) (a : App) :
  consistent a -> consistent (run evs a).
Proof.
  revert a. induction evs as [| e evs IH]; intros a Ha; cbn; [exact Ha |].
  apply IH. now apply step_consistent.
Qed.

Lemma stop_switches_off (a : App) (e : Event) :
  stops e = true -> scheduler_on (step a e) = false.
Proof.
  destruct e as [s | | id]; cbn [stops step]; [| | discriminate].
  - intros Hs. unfold selectIsAuthenticated.
    destruct (isAuthenticated s); [discriminate |].
    destruct (instance a) as [m |] eqn:Hm; [| reflexivity].
    destruct (deps m) eqn:Hd; cbn; [reflexivity |].
    unfold scheduler_on. rewrite Hm. exact Hd.
  - intros _. destruct (instance a) as [m |] eqn:Hm; [reflexivity |].
    unfold scheduler_on. rewrite Hm. reflexivity.
Qed.

(** While the scheduler is off, an event that does not render the
    provider authenticated leaves the page as it is. *)
Lemma idle_step (a : App) (e : Event) :
  consistent a -> scheduler_on a = false -> idle e = true ->
  scheduler_on (step a e) = false /\ page (step a e) = page a.
Proof.
  unfold consistent, scheduler_on. intros Ha Hoff He.
  destruct e as [s | | id]; cbn [idle step] in *.
  - unfold selectIsAuthenticated. destruct (isAuthenticated s); [discriminate |].
    destruct (instance a) as [m |] eqn:Hm.
    + subst. rewrite Hoff. cbn. rewrite Hm. split; [exact Hoff | reflexivity].
    + cbn. split; reflexivity.
  - destruct (instance a) as [m |] eqn:Hm.
    + rewrite Hoff in Ha. destruct Ha as (-> & _). cbn.
      split; [reflexivity |]. now destruct (page a).
    + rewrite Hm. split; reflexivity.
  - assert (Ht : timers (page a) = ∅).
    { destruct (instance a) as [m |]; [| exact Ha].
      rewrite Hoff in Ha. apply Ha. }
    rewrite Ht, lookup_empty. split; [exact Hoff | reflexivity].
Qed.

Lemma idle_run (evs : list Event) (a : App) :
  consistent a -> scheduler_on a = false -> forallb idle evs = true ->
  scheduler_on (run evs a) = false /\ page (run evs a) = page a.
Proof.
  revert a. induction evs as [| e evs IH]; intros a Ha Hoff Hevs.
  - split; [exact Hoff | reflexivity].
  - cbn [forallb] in Hevs. apply andb_prop in Hevs as [He Hevs].
    change (run (e :: evs) a) with (run evs (step a e)).
    destruct (idle_step a e Ha Hoff He) as [Hoff' Hpage].
    destruct (IH (step a e) (step_consistent a e Ha) Hoff' Hevs) as [Hoff'' Hpage'].
    split; [exact Hoff'' |]. now rewrite Hpage'.
Qed.

(** C9. After any sequence of renders, unmounts and interval events: a
    render with [isAuthenticated = false] or an unmount switches the
    scheduler off; while it is on, exactly one interval is live, of 50
    minutes; while it is off, no interval is live, and over any further
    events that do not render the provider authenticated none is set and
    the interval makes no call of [validateToken()]. *)
Theorem interval_torn_down (before after : list Event) :
  let a := run before boot in
  let z := run after a in
  (forall e, stops e = true -> scheduler_on (step a e) = false) /\
  (scheduler_on a = true ->
   exists id, timers (page a) = {[ id := mkTimer CallValidateToken (50 * 60 * 1000) ]}) /\
  (scheduler_on a = false -> forallb idle after = true ->
   timers (page a) = ∅ /\
   timers (page z) = ∅ /\
   next_id (page z) = next_id (page a) /\
   scheduled_calls (page z) = scheduled_calls (page a)).
Proof.
  cbv zeta.
  pose proof (run_consistent before boot boot_consistent) as Ha.
  split; [intros e; apply stop_switches_off |].
  split.
  - unfold scheduler_on, consistent in *.
    destruct (instance (run before boot)) as [m |]; [| discriminate].
    intros Hon. rewrite Hon in Ha. destruct Ha as (id & _ & Ht).
    exists id. exact Ht.
  - intros Hoff Hidle.
    destruct (idle_run after _ Ha Hoff Hidle) as [_ Hpage].
    rewrite Hpage.
    assert (Ht : timers (page (run before boot)) = ∅).
    { unfold scheduler_on, consistent in *.
      destruct (instance (run before boot)) as [m |]; [| exact Ha].
      rewrite Hoff in Ha. apply Ha. }
    repeat split; exact Ht.
Qed.

Example interval_calls_while_on :
  validations (page (run [Render (store AuthStoreSpec.signed_in); Elapse 0; Elapse 0] boot))
  = [FromEffect; FromInterval; FromInterval].
Proof. reflexivity. Qed.

Lemma interval_torn_down_witness :
  let a := run signed_in_then_out boot in
  let z := run [Elapse 0; Unmount; Elapse 0; Render initialState; Elapse 1] a in
  timers (page a) = ∅ /\
  timers (page z) = ∅ /\
  next_id (page z) = next_id (page a) /\
  scheduled_calls (page z) = scheduled_calls (page a).
Proof.
  apply (proj2 (proj2 (interval_torn_down signed_in_then_out
                         [Elapse 0; Unmount; Elapse 0; Render initialState; Elapse 1])));
    reflexivity.
Defined.

End AuthProviderFacts.

(** * More properties of the store *)

Module AuthStoreMoreFacts.
Import Js Http AuthStore AuthStoreSpec AuthPersist AuthStoreMoreSpec.

(** X5. What the operations never touch. Only [setUser], [login] and
    [logout] change [user]; [setUser], [clearError], [setError] and
    [setLoading] change neither [accessToken] nor [isAuthenticated]; and
    only [logout], [refreshAccessToken] and [validateToken] send a
    request or write to the console. *)
Theorem operations_frame (net : Net) (op : Op) (w : World) :
  let w' := perform net op w in
  (writes_user op = false -> user (store w') = user (store w)) /\
  (writes_session op = false ->
   accessToken (store w') = accessToken (store w) /\
   isAuthenticated (store w') = isAuthenticated (store w)) /\
  (fetches op = false -> exchanges w' = exchanges w /\ console w' = console w).
Proof.
  cbv zeta.
  assert (Hr : forall w0, user (store (snd (refreshAccessToken net w0))) = user (store w0)).
  { intros w0. rewrite AuthStoreFacts.refreshAccessToken_run. unfold refreshed.
    destruct (refresh_reply _); reflexivity. }
  destruct op; cbn [perform writes_user writes_session fetches];
    (split; [| split]); try discriminate; try (intros _; cbn; repeat split).
  - unfold exec. apply Hr.
  - unfold exec. rewrite AuthStoreFacts.validateToken_run.
    destruct (truthy_opt (accessToken (store w))); [| apply Hr].
    cbv zeta. destruct (net _ _) as [e | r]; [rewrite Hr; reflexivity |].
    destruct (ok r); [reflexivity |].
    destruct (status r =? 401); rewrite Hr; reflexivity.
Qed.

Lemma operations_frame_witness :
  user (store (perform net_down ValidateToken signed_in)) = user (store signed_in) /\
  (accessToken (store (perform net_down (SetError "x") signed_in))
   = accessToken (store signed_in) /\
   isAuthenticated (store (perform net_down (SetError "x") signed_in))
   = isAuthenticated (store signed_in)) /\
  (exchanges (perform net_down (SetLoading true) signed_in) = exchanges signed_in /\
   console (perform net_down (SetLoading true) signed_in) = console signed_in).
Proof.
  split; [| split].
  - apply (operations_frame net_down ValidateToken signed_in). reflexivity.
  - apply (operations_frame net_down (SetError "x") signed_in). reflexivity.
  - apply (operations_frame net_down (SetLoading true) signed_in). reflexivity.
Defined.

(** X6. A reload keeps the session and drops the transient fields:
    putting the persisted part of a state back into the initial state
    gives the same token, user and flag with [isLoading = false] and
    [error = null]; persisting that state again gives the same object;
    and the state still has a token whenever it is authenticated if the
    persisted one had. *)
Theorem reload_round_trip (s : AuthState) :
  let s' := rehydrate (partialize s) initialState in
  s' = {| accessToken := accessToken s; user := user s;
          isAuthenticated := isAuthenticated s;
          isLoading := false; error := None |} /\
  partialize s' = partialize s /\
  (token_held s -> token_held s').
Proof.
  cbv zeta. repeat split. intros H. exact H.
Qed.

Lemma reload_round_trip_witness :
  token_held (rehydrate (partialize (store signed_in)) initialState).
Proof.
  apply (reload_round_trip (store signed_in)). cbn. discriminate.
Defined.

End AuthStoreMoreFacts.

(** * More properties of the provider *)

Module AuthProviderMoreFacts.
Import AuthStore AuthProvider AuthProviderSpec AuthProviderMoreSpec.

(** X7. A render that does not change [isAuthenticated] does nothing:
    it neither validates again nor restarts the interval. *)
Theorem render_same_flag (a : App) (s1 s2 : AuthState) :
  isAuthenticated s1 = isAuthenticated s2 ->
  step (step a (Render s1)) (Render s2) = step a (Render s1).
Proof.
  intros Hflag. cbn [step]. unfold selectIsAuthenticated. rewrite <- Hflag.
  destruct (instance a) as [m |] eqn:Hm.
  - destruct (Bool.eqb (deps m) (isAuthenticated s1)) eqn:Hd.
    + rewrite Hm, Hd. reflexivity.
    + destruct (run_effects effects (isAuthenticated s1) _) as [cs p].
      cbn. rewrite Bool.eqb_reflx. reflexivity.
  - destruct (run_effects effects (isAuthenticated s1) _) as [cs p].
    cbn. rewrite Bool.eqb_reflx. reflexivity.
Qed.

Lemma render_same_flag_witness :
  step (step boot (Render (store AuthStoreSpec.signed_in)))
       (Render (store (exec (setLoading true) AuthStoreSpec.signed_in)))
  = step boot (Render (store AuthStoreSpec.signed_in)).
Proof.
  apply (render_same_flag boot). reflexivity.
Defined.

Lemma step_effect_calls (a : App) (e : Event) :
  length (effect_calls (page (step a e)))
  = (length (effect_calls (page a)) + sign_ins (scheduler_on a) [e])%nat /\
  scheduler_on (step a e)
  = match e with
    | Render s => isAuthenticated s
    | Unmount => false
    | Elapse _ => scheduler_on a
    end.
Proof.
  assert (Hc : forall cs p, validations (run_cleanups cs p) = validations p).
  { intros cs. induction cs as [| [[i] |] cs IH]; intros p; cbn; [reflexivity | |];
      unfold run_cleanups in IH; rewrite IH; reflexivity. }
  unfold effect_calls, scheduler_on.
  destruct e as [s | | i]; cbn [step sign_ins]; unfold selectIsAuthenticated.
  - destruct (instance a) as [m |] eqn:Hm.
    + destruct (deps m) eqn:Hd, (isAuthenticated s) eqn:Hs; cbn; rewrite ?Hm, ?Hd;
        rewrite ?Hc, ?List.filter_app, ?length_app; cbn; split; (reflexivity || lia).
    + destruct (isAuthenticated s); cbn;
        rewrite ?List.filter_app, ?length_app; cbn; split; (reflexivity || lia).
  - destruct (instance a) as [m |] eqn:Hm; cbn; rewrite ?Hm, ?Hc; split;
      (reflexivity || lia).
  - destruct (timers (page a) !! i) as [[[] ms] |]; cbn;
      rewrite ?List.filter_app, ?length_app; cbn; split; (reflexivity || lia).
Qed.

(** X9. The first effect validates once per sign-in: over any sequence of
    events, the number of [validateToken()] calls it makes is the number
    of times the provider goes from not rendered authenticated (or not
    mounted) to rendered authenticated. *)
Theorem effect_validates_once_per_sign_in (evs : list Event) (a : App) :
  length (effect_calls (page (run evs a)))
  = (length (effect_calls (page a)) + sign_ins (scheduler_on a) evs)%nat.
Proof.
  revert a. induction evs as [| e evs IH]; intros a; [cbn; lia |].
  change (run (e :: evs) a) with (run evs (step a e)).
  rewrite IH. destruct (step_effect_calls a e) as [Hlen Hon].
  rewrite Hlen, Hon. destruct e as [s | | i]; cbn [sign_ins]; lia.
Qed.

End AuthProviderMoreFacts.

(** * Properties of the route handlers *)

Module ServerFacts.
Import Js JsString Http AuthStore Server Site ServerSpec.

Lemma startsWith_Bearer (t : string) : startsWith ("Bearer " ++ t) "Bearer " = true.
Proof.
  unfold startsWith. cbn.
  repeat (destruct (Ascii.ascii_dec _ _) as [_ | Hne]; [| now destruct Hne]).
  destruct t; reflexivity.
Qed.

Lemma bearer_Bearer (t : string) : bearer (Some ("Bearer " ++ t)) = true.
Proof.
  unfold bearer. cbn [truthy_opt template]. rewrite startsWith_Bearer. reflexivity.
Qed.

(** ** The validate route in closed form *)

Lemma validate_POST_run (env : Env) (backend : Backend) (request : Incoming) (t0 : Trail) :
  validate_POST env backend request t0
  = let auth := in_headers request !! "authorization" in
    if bearer auth then
      let req := validate_upstream env (substring_from 7 (template auth)) in
      let t1 := asked t0 req (backend req) in
      match backend req with
      | BackendRejected e =>
          failed "[Validate API] 오류:" "Access Token 검증 중 오류가 발생했습니다" e t1
      | BackendResolved r =>
          if b_ok r then
            match b_body r with
            | BackendJsonRejects e =>
                failed "[Validate API] 오류:" "Access Token 검증 중 오류가 발생했습니다" e t1
            | BackendJson BackendNull =>
                failed "[Validate API] 오류:" "Access Token 검증 중 오류가 발생했습니다"
                  (null_data_error "user") t1
            | BackendJson (BackendObject _ u) =>
                (Returned {| reply_status := 200; reply_body := ValidReply u;
                             reply_cookies := [] |}, t1)
            end
          else if no_body_status (b_status r) then
            failed "[Validate API] 오류:" "Access Token 검증 중 오류가 발생했습니다"
              invalid_status_error t1
          else
            (Returned {| reply_status := b_status r;
                         reply_body := ErrorReply "Access Token이 유효하지 않습니다";
                         reply_cookies := [] |}, t1)
      end
    else
      (Returned {| reply_status := 401; reply_body := ErrorReply "Access Token이 없습니다";
                   reply_cookies := [] |}, t0).
Proof.
  cbv zeta. unfold validate_POST, bearer, htry.
  destruct (truthy_opt (in_headers request !! "authorization")); cbn [negb orb andb];
    [| reflexivity].
  destruct (startsWith (template (in_headers request !! "authorization")) "Bearer ");
    cbn [negb]; [| reflexivity].
  unfold hbind at 1. unfold hfetch at 1.
  fold (validate_backend env).
  fold (validate_upstream env (substring_from 7 (template (in_headers request !! "authorization")))).
  destruct (backend _) as [e | r]; [reflexivity |].
  unfold b_ok at 1. fold (b_ok r).
  destruct (b_ok r) eqn:Hok; cbn [negb].
  - unfold hbind, hjson, read_user.
    destruct (b_body r) as [e | [| tok u]]; reflexivity.
  - unfold NextResponse_json at 1.
    destruct (no_body_status (b_status r)); reflexivity.
Qed.

(** X10. The validate route lets a request through only with a bearer
    token, and hands on exactly that token. Without an [Authorization]
    header that starts with ["Bearer "] it answers 401 and the backend is
    not asked; with the header ["Bearer " ++ t] it asks the backend once,
    with the same header. *)
Theorem validate_route_gate (env : Env) (backend : Backend) (request : Incoming) :
  let auth := in_headers request !! "authorization" in
  let r := validate_POST env backend request no_trail in
  (bearer auth = false ->
   fst r = Returned {| reply_status := 401;
                       reply_body := ErrorReply "Access Token이 없습니다";
                       reply_cookies := [] |} /\
   snd r = no_trail) /\
  (forall t, auth = Some ("Bearer " ++ t) ->
   upstream (snd r) = [(validate_upstream env t, backend (validate_upstream env t))]).
Proof.
  cbv zeta. rewrite validate_POST_run. cbv zeta. split.
  - intros ->. split; reflexivity.
  - intros t ->. rewrite bearer_Bearer.
    change (substring_from 7 (template (Some ("Bearer " ++ t)))) with t.
    destruct (backend (validate_upstream env t)) as [e | r]; [reflexivity |].
    destruct (b_ok r).
    + destruct (b_body r) as [e | [| tok u]]; reflexivity.
    + destruct (no_body_status (b_status r)); reflexivity.
Qed.

Lemma validate_route_gate_witness :
  upstream (snd (validate_POST production backend_rejecting
                   bearer_abc no_trail))
  = [(validate_upstream production "abc",
      backend_rejecting (validate_upstream production "abc"))].
Proof.
  apply (proj2 (validate_route_gate production backend_rejecting
                  bearer_abc) "abc").
  reflexivity.
Defined.

(** X11. The validate route never throws. It answers 200 exactly when
    the request carries a bearer token and the backend answers a success
    with a readable body; and it hands on the status of a backend
    failure (401 for an expired token, say) whenever a response with a
    body can carry that status. *)
Theorem validate_route_replies (env : Env) (backend : Backend) (request : Incoming) :
  let auth := in_headers request !! "authorization" in
  let out := backend (validate_upstream env (substring_from 7 (template auth))) in
  exists reply,
    fst (validate_POST env backend request no_trail) = Returned reply /\
    (reply_status reply = 200 <-> bearer auth = true /\ backend_accepts out = true) /\
    (forall r,
       bearer auth = true -> out = BackendResolved r ->
       b_ok r = false -> no_body_status (b_status r) = false ->
       reply_status reply = b_status r).
Proof.
  cbv zeta. rewrite validate_POST_run. cbv zeta.
  destruct (bearer _) eqn:Hb.
  - destruct (backend _) as [e | r] eqn:Hout; cbn [backend_accepts].
    + eexists. split; [reflexivity |]. cbn. split; [split; [discriminate | intros [_ H]; discriminate H] |].
      intros r _ H. discriminate H.
    + destruct (b_ok r) eqn:Hok; cbn [andb].
      * destruct (b_body r) as [e | [| tok u]]; eexists; (split; [reflexivity |]); cbn;
          (split; [split; [try discriminate; intros _; now split
                          | try (intros [_ H]; discriminate H); reflexivity] |]);
          intros r' _ H; injection H as <-; congruence.
      * destruct (no_body_status (b_status r)) eqn:Hnb; eexists; (split; [reflexivity |]); cbn.
        -- split; [split; [discriminate | intros [_ H]; discriminate H] |].
           intros r' _ H; injection H as <-; congruence.
        -- split.
           ++ split; [| intros [_ H]; discriminate H].
              intros H200. unfold b_ok in Hok. rewrite H200 in Hok. discriminate Hok.
           ++ intros r' _ H; injection H as <-. reflexivity.
  - eexists. split; [reflexivity |]. cbn.
    split; [split; [discriminate | intros [H _]; discriminate H] |].
    intros r H. discriminate H.
Qed.

Lemma validate_route_replies_witness :
  exists reply,
    fst (validate_POST production backend_rejecting
           bearer_abc no_trail) = Returned reply /\
    reply_status reply = 401.
Proof.
  destruct (validate_route_replies production backend_rejecting
              bearer_abc) as (reply & Hr & _ & Hpass).
  exists reply. split; [exact Hr |].
  apply (Hpass {| b_status := 401; b_body := BackendJson BackendNull |}); reflexivity.
Defined.

(** ** The refresh route in closed form *)

Lemma refresh_POST_run (env : Env) (backend : Backend) (request : Incoming) (t0 : Trail) :
  refresh_POST env backend request t0
  = let rt := in_cookies request !! "refreshToken" in
    if truthy_opt rt then
      let req := refresh_upstream env (template rt) in
      let t1 := asked t0 req (backend req) in
      match backend req with
      | BackendRejected e =>
          failed "[Refresh API] 오류:" "Access Token 갱신 중 오류가 발생했습니다" e t1
      | BackendResolved r =>
          if b_ok r then
            match b_body r with
            | BackendJsonRejects e =>
                failed "[Refresh API] 오류:" "Access Token 갱신 중 오류가 발생했습니다" e t1
            | BackendJson BackendNull =>
                failed "[Refresh API] 오류:" "Access Token 갱신 중 오류가 발생했습니다"
                  (null_data_error "accessToken") t1
            | BackendJson (BackendObject tok _) =>
                (Returned {| reply_status := 200; reply_body := TokenReply tok;
                             reply_cookies := [] |}, t1)
            end
          else if no_body_status (b_status r) then
            failed "[Refresh API] 오류:" "Access Token 갱신 중 오류가 발생했습니다"
              invalid_status_error t1
          else
            (Returned {| reply_status := b_status r;
                         reply_body := ErrorReply "Access Token 갱신 실패";
                         reply_cookies := [] |}, t1)
      end
    else
      (Returned {| reply_status := 401; reply_body := ErrorReply "Refresh Token이 없습니다";
                   reply_cookies := [] |}, t0).
Proof.
  cbv zeta. unfold refresh_POST, htry.
  destruct (truthy_opt (in_cookies request !! "refreshToken")); cbn [negb];
    [| reflexivity].
  unfold hbind at 1. unfold hfetch at 1.
  fold (refresh_backend env).
  fold (refresh_upstream env (template (in_cookies request !! "refreshToken"))).
  destruct (backend _) as [e | r]; [reflexivity |].
  destruct (b_ok r) eqn:Hok; cbn [negb].
  - unfold hbind, hjson, read_token.
    destruct (b_body r) as [e | [| tok u]]; reflexivity.
  - unfold NextResponse_json at 1.
    destruct (no_body_status (b_status r)); reflexivity.
Qed.

(** X12. The refresh route never throws and asks the backend only with
    a refresh token. Without a non-empty [refreshToken] cookie it answers
    401 and the backend is not asked. With one it asks the backend once,
    sending that token, answers 200 with the backend's [accessToken] when
    the backend answers a success with an object, and hands on the status
    of a backend failure that a response with a body can carry. *)
Theorem refresh_route_replies (env : Env) (backend : Backend) (request : Incoming) :
  let rt := in_cookies request !! "refreshToken" in
  let r := refresh_POST env backend request no_trail in
  (exists reply, fst r = Returned reply) /\
  (truthy_opt rt = false ->
   fst r = Returned {| reply_status := 401;
                       reply_body := ErrorReply "Refresh Token이 없습니다";
                       reply_cookies := [] |} /\
   snd r = no_trail) /\
  (forall s, rt = Some s -> s <> "" ->
   let out := backend (refresh_upstream env s) in
   upstream (snd r) = [(refresh_upstream env s, out)] /\
   (forall resp tok u,
      out = BackendResolved resp -> b_ok resp = true ->
      b_body resp = BackendJson (BackendObject tok u) ->
      fst r = Returned {| reply_status := 200; reply_body := TokenReply tok;
                          reply_cookies := [] |}) /\
   (forall resp,
      out = BackendResolved resp -> b_ok resp = false ->
      no_body_status (b_status resp) = false ->
      fst r = Returned {| reply_status := b_status resp;
                          reply_body := ErrorReply "Access Token 갱신 실패";
                          reply_cookies := [] |})).
Proof.
  cbv zeta. rewrite refresh_POST_run. cbv zeta. split; [| split].
  - destruct (truthy_opt _); [| eexists; reflexivity].
    destruct (backend _) as [e | r]; [eexists; reflexivity |].
    destruct (b_ok r); [destruct (b_body r) as [e | [| tok u]] |
                        destruct (no_body_status (b_status r))];
      eexists; reflexivity.
  - intros ->. split; reflexivity.
  - intros s -> Hs. apply AuthStoreFacts.truthy_nonempty in Hs.
    cbn [truthy_opt template]. rewrite Hs.
    destruct (backend (refresh_upstream env s)) as [e | r] eqn:Hout.
    + split; [reflexivity |]. split; intros; discriminate.
    + destruct (b_ok r) eqn:Hok.
      * destruct (b_body r) as [e | [| tok u]] eqn:Hbody;
          (split; [reflexivity |]); split;
          try (intros resp H; injection H as <-; congruence);
          intros resp tok' u' H; injection H as <-; intros _ Hb;
          rewrite Hbody in Hb; try discriminate Hb.
        injection Hb as <- <-. reflexivity.
      * destruct (no_body_status (b_status r)) eqn:Hnb;
          (split; [reflexivity |]); split;
          try (intros resp tok' u' H; injection H as <-; congruence);
          intros resp H; injection H as <-; intros _ Hnb'; try congruence.
        reflexivity.
Qed.

Lemma refresh_route_replies_witness :
  fst (refresh_POST production backend_granting
         holding_cookie no_trail)
  = Returned {| reply_status := 200; reply_body := TokenReply (Some "xyz");
                reply_cookies := [] |} /\
  fst (refresh_POST production backend_granting without_cookie no_trail)
  = Returned {| reply_status := 401; reply_body := ErrorReply "Refresh Token이 없습니다";
                reply_cookies := [] |}.
Proof.
  split.
  - destruct (refresh_route_replies production backend_granting
                holding_cookie) as (_ & _ & H).
    destruct (H "r-1") as (_ & Hok & _); [reflexivity | discriminate |].
    apply (Hok {| b_status := 200; b_body := BackendJson (BackendObject (Some "xyz") None) |}
               (Some "xyz") None); reflexivity.
  - apply (refresh_route_replies production backend_granting without_cookie).
    reflexivity.
Defined.

End ServerFacts.

(** * The store and its routes together *)

Module SiteFacts.
Import Js JsString Http AuthStore AuthStoreSpec Server Site ServerSpec PersistedStoreSpec.

Section Transport.

Variable valid_header : string -> bool.
Variable header_error : Thrown.
Variable cookie_value : string -> option string.

Lemma incoming_refresh (jar : gmap string string) :
  incoming valid_header cookie_value jar refresh_request
  = Some {| in_headers := ∅; in_cookies := omap cookie_value jar |}.
Proof. reflexivity. Qed.


(** What the store sees of the refresh route, as [refresh_reply] reads
    it: the new token, or the message of the failure. *)
Lemma site_refresh_reply (env : Env) (jar : gmap string string)
    (backend : nat -> Backend) (n : nat) :
  refresh_reply (site valid_header header_error cookie_value env jar backend n refresh_request)
  = match refresh_cookie cookie_value jar with
    | Some rt =>
        if truthy rt then
          match backend n (refresh_upstream env rt) with
          | BackendResolved r =>
              if b_ok r then
                match b_body r with
                | BackendJson (BackendObject (Some t) _) =>
                    if truthy t then inl t else inr "Access Token이 응답에 없습니다"
                | BackendJson (BackendObject None _) => inr "Access Token이 응답에 없습니다"
                | _ => inr "토큰 갱신 실패"
                end
              else inr "토큰 갱신 실패"
          | BackendRejected _ => inr "토큰 갱신 실패"
          end
        else inr "토큰 갱신 실패"
    | None => inr "토큰 갱신 실패"
    end.
Proof.
  unfold site. rewrite incoming_refresh.
  cbn [method url refresh_request String.eqb Ascii.eqb Bool.eqb negb].
  change (String.eqb "POST" "POST") with true. cbn [negb].
  change (String.eqb "/api/auth/refresh" "/api/auth/validate") with false.
  change (String.eqb "/api/auth/refresh" "/api/auth/refresh") with true.
  cbv iota. unfold answer. rewrite ServerFacts.refresh_POST_run. cbv zeta.
  cbn [in_cookies]. rewrite lookup_omap. fold (refresh_cookie cookie_value jar).
  destruct (refresh_cookie cookie_value jar) as [rt |]; cbn [truthy_opt template];
    [| reflexivity].
  destruct (truthy rt); [| reflexivity].
  destruct (backend n (refresh_upstream env rt)) as [e | r]; [reflexivity |].
  destruct (b_ok r) eqn:Hok.
  - destruct (b_body r) as [e | [| [t |] u]]; reflexivity.
  - destruct (no_body_status (b_status r)) eqn:Hnb; [reflexivity |].
    cbn. unfold refresh_reply, ok. cbn [status].
    unfold b_ok in Hok. rewrite Hok. reflexivity.
Qed.

(** X13. Refreshing through the refresh route. [refreshAccessToken()]
    returns [true] only if the refresh route reads a non-empty
    [refreshToken] cookie and the backend, asked with it, answers a
    success. With a storage that accepts every write it does return
    [true], and the store holds the new token and is authenticated, when
    the backend's answer carries a non-empty string as access token; and
    it returns [false], with the error of a failed refresh, when the
    route reads no refresh token. *)
Theorem refresh_through_site (storage : PersistedStore.Storage) (env : Env)
    (jar : gmap string string) (backend : nat -> Backend) (w : World) :
  let net := site valid_header header_error cookie_value env jar backend in
  let n := length (exchanges w) in
  let r := result (PersistedStore.refreshAccessToken storage net) w in
  let w' := exec (PersistedStore.refreshAccessToken storage net) w in
  (r = Returned true ->
   exists rt response,
     refresh_cookie cookie_value jar = Some rt /\ rt <> "" /\
     backend n (refresh_upstream env rt) = BackendResolved response /\
     b_ok response = true) /\
  (accepts storage ->
   (forall rt t,
      refresh_cookie cookie_value jar = Some rt -> rt <> "" ->
      backend_grants (backend n (refresh_upstream env rt)) t ->
      r = Returned true /\
      accessToken (store w') = Some t /\ isAuthenticated (store w') = true) /\
   (truthy_opt (refresh_cookie cookie_value jar) = false ->
    r = Returned false /\
    store w' = {| accessToken := None; user := user (store w);
                  isAuthenticated := false; isLoading := false;
                  error := Some "토큰 갱신 실패" |})).
Proof.
  cbv zeta. unfold result, exec. split.
  - intros Htrue.
    destruct (PersistedStoreFacts.refreshAccessToken_true _ _ _ Htrue) as [t Ht].
    rewrite site_refresh_reply in Ht.
    destruct (refresh_cookie cookie_value jar) as [rt |]; [| discriminate Ht].
    destruct (truthy rt) eqn:Hrt; [| discriminate Ht].
    destruct (backend (length (exchanges w)) (refresh_upstream env rt))
      as [e | response] eqn:Hout; [discriminate Ht |].
    destruct (b_ok response) eqn:Hok; [| discriminate Ht].
    exists rt, response.
    split; [reflexivity |]. split; [now apply AuthStoreFacts.truthy_nonempty |].
    split; [exact Hout | exact Hok].
  - intros Hacc.
    rewrite PersistedStoreFacts.accepted_refreshAccessToken by exact Hacc.
    rewrite AuthStoreFacts.refreshAccessToken_run. unfold refreshed.
    rewrite site_refresh_reply. split.
    + intros rt t -> Hne (response & u & -> & Hok & Hbody & Hnet).
      apply AuthStoreFacts.truthy_nonempty in Hne, Hnet.
      rewrite Hne, Hok, Hbody, Hnet. repeat split.
    + destruct (refresh_cookie cookie_value jar) as [rt |]; cbn [truthy_opt].
      * intros ->. split; reflexivity.
      * intros _. split; reflexivity.
Qed.



(** A token of white space only is not a token for the validate route:
    the [Authorization] value reaches it as ["Bearer"], it answers 401
    and the backend is not asked. *)
Lemma blank_token_unauthorized (env : Env) (jar : gmap string string)
    (backend : nat -> Backend) (n : nat) :
  valid_header "application/json" = true ->
  valid_header "Bearer" = true ->
  site valid_header header_error cookie_value env jar backend n (validate_request (Some " "))
  = Resolved {| status := 401; body := JsonValue (JsonObject None) |}.
Proof.
  intros Hjson Hbearer. unfold site, incoming.
  cbn [headers validate_request map fst snd template].
  change (normalize "application/json") with "application/json".
  change (normalize ("Bearer " ++ " ")) with "Bearer".
  cbn [forallb snd]. rewrite Hjson, Hbearer. reflexivity.
Qed.

End Transport.

Lemma refresh_through_site_witness :
  let call :=
    PersistedStore.refreshAccessToken PersistedStore.writable
      (site printable header_rejected Some production jar_with_refresh_token
         (fun _ => backend_granting)) in
  result call fresh = Returned true /\
  accessToken (store (exec call fresh)) = Some "xyz" /\
  isAuthenticated (store (exec call fresh)) = true.
Proof.
  apply (proj1 (proj2 (refresh_through_site printable header_rejected Some
                         PersistedStore.writable production jar_with_refresh_token
                         (fun _ => backend_granting) fresh)
                      (fun _ _ => eq_refl)) "r-1" "xyz");
    [reflexivity | discriminate |].
  exists {| b_status := 200; b_body := BackendJson (BackendObject (Some "xyz") None) |}, None.
  repeat split. discriminate.
Defined.


End SiteFacts.

(** * Properties of the callers of the store *)

Module CallersFacts.
Import Ascii Js JsString AuthStore Eff CallersSpec.

Lemma split_length (sep : ascii) (s : string) :
  length (split sep s) = S (occurrences sep s).
Proof.
  induction s as [| c s IH]; cbn; [reflexivity |].
  destruct (Ascii.eqb c sep); cbn; [now rewrite IH |].
  destruct (split sep s) as [| p ps]; cbn in *; lia.
Qed.

(** X15. [extractUserFromToken] never throws. It returns [null] for
    every token that does not have exactly two dots; and a user it
    returns has a non-empty [id] and a non-empty [provider]. *)
Theorem extractUserFromToken_result
    (atob : string -> Thrown + string) (JSON_parse : string -> Thrown + Jwt.Parsed)
    (token : string) (c : Jwt.Console) :
  let r := Jwt.extractUserFromToken atob JSON_parse token c in
  (exists u, fst r = Returned u) /\
  (occurrences "." token <> 2%nat -> r = (Returned None, c)) /\
  (forall u, fst r = Returned (Some u) ->
   occurrences "." token = 2%nat /\ Jwt.id u <> "" /\ Jwt.user_provider u <> "").
Proof.
  cbv zeta. unfold Jwt.extractUserFromToken, Jwt.decodeJWT, ebind, etry, eret, call,
    ethrow, Jwt.console_error.
  rewrite split_length.
  destruct (Nat.eqb_spec (S (occurrences "." token)) 3) as [H3 | H3]; cbn [negb].
  2:{ split; [eexists; reflexivity |]. split; [reflexivity |]. intros u H. discriminate H. }
  assert (H2 : occurrences "." token = 2%nat) by lia.
  destruct (atob _) as [e | decoded]; cbn.
  { split; [eexists; reflexivity |]. split; [congruence |]. intros u H. discriminate H. }
  destruct (JSON_parse decoded) as [e | [| p]]; cbn;
    try (split; [eexists; reflexivity |]; split; [congruence |]; intros u H; discriminate H).
  destruct (Jwt.sub p) as [s |] eqn:Hsub; cbn;
    [| split; [eexists; reflexivity |]; split; [congruence |]; intros u H; discriminate H].
  destruct (truthy s) eqn:Hs; cbn;
    [| split; [eexists; reflexivity |]; split; [congruence |]; intros u H; discriminate H].
  split; [eexists; reflexivity |]. split; [congruence |].
  intros u H. injection H as <-. cbn. split; [exact H2 |]. split.
  - now apply AuthStoreFacts.truthy_nonempty.
  - unfold or_default. destruct (Jwt.provider p) as [q |]; cbn; [| discriminate].
    destruct (truthy q) eqn:Hq; [| discriminate].
    now apply AuthStoreFacts.truthy_nonempty.
Qed.

Lemma extractUserFromToken_result_witness :
  Jwt.extractUserFromToken (fun s => inr s) (fun _ => inr Jwt.ParsedNull) "a.b" []
  = (Returned None, []).
Proof.
  apply (extractUserFromToken_result (fun s => inr s) (fun _ => inr Jwt.ParsedNull) "a.b" []).
  cbn. lia.
Defined.

Ltac unfold_callback :=
  unfold GoogleCallback.handleCallback, GoogleCallback.fetch, GoogleCallback.text,
    GoogleCallback.JSON_parse, GoogleCallback.json, GoogleCallback.fields_of,
    GoogleCallback.console, GoogleCallback.push, GoogleCallback.on_store,
    ebind, etry, eret, ethrow.

(** X16. [handleCallback] never throws, sends one request and sends the
    router to exactly one route. When the answer signs the user in and
    the storage refuses the session, the store's action throws into the
    [catch] block and the route is ["/"]. Otherwise it is the
    [redirectUrl] of the answer when its body is an object that names
    one, else ["/dashboard/google"] for a success with an object body
    (whatever its [success] property says) and ["/"] for everything
    else. *)
Theorem handleCallback_navigates_once
    (storage : PersistedStore.Storage)
    (api : GoogleCallback.ApiRequest -> GoogleCallback.ApiOutcome)
    (extract : string -> option User) (code : string) (p : GoogleCallback.Page) :
  let req := GoogleCallback.callback_request code in
  let r := GoogleCallback.handleCallback storage api extract code p in
  fst r = Returned tt /\
  GoogleCallback.pushes (snd r)
  = (GoogleCallback.pushes p
     ++ [if refused storage extract (GoogleCallback.auth p) (api req) then "/"
         else destination (api req)])%list /\
  GoogleCallback.sent (snd r) = (GoogleCallback.sent p ++ [(req, api req)])%list.
Proof.
  cbv zeta. unfold refused, signed_in_user, signs_in, destination. unfold_callback.
  destruct (api (GoogleCallback.callback_request code)) as [e | r]; cbn;
    [repeat split |].
  destruct (GoogleCallback.ok r) eqn:Hok; cbn.
  - destruct (GoogleCallback.payload r) as [e | e | [| f]]; cbn;
      [repeat split | repeat split | repeat split |].
    rewrite orb_true_r.
    destruct (truthy_opt (or_else _ _)) eqn:Htok; cbn; [| repeat split].
    assert (Htruthy : truthy (template (or_else (GoogleCallback.f_accessToken f)
                                                (GoogleCallback.f_token f))) = true).
    { destruct (or_else _ _); [exact Htok | discriminate Htok]. }
    unfold PersistedStore.login, PersistedStore.setAccessToken, PersistedStore.set_,
      PersistedStore.setItem, set_, bind, AuthPersist.partialize.
    destruct (GoogleCallback.f_user f) as [u |]; cbn.
    + destruct (storage _ _); cbn; repeat split.
    + destruct (extract _) as [u |]; cbn.
      * destruct (storage _ _); cbn; repeat split.
      * rewrite Htruthy. destruct (storage _ _); cbn; repeat split.
  - destruct (GoogleCallback.payload r) as [e | e | [| f]]; cbn;
      [repeat split | repeat split | repeat split |].
    unfold or_default. destruct (truthy_opt (GoogleCallback.f_redirectUrl f)); cbn;
      repeat split.
Qed.

(** X17. What [handleCallback] does to the store, whatever the storage
    does. Unless the answer is a success whose body carries a non-empty
    [accessToken] (or, failing that, [token]), the store is left as it
    was. If it does, the store holds that token with
    [isAuthenticated = true] and no error; its user is the [user] of the
    answer, else the one extracted from the token, else, when neither is
    there, the user the store held before. *)
Theorem handleCallback_signs_in
    (storage : PersistedStore.Storage)
    (api : GoogleCallback.ApiRequest -> GoogleCallback.ApiOutcome)
    (extract : string -> option User) (code : string) (p : GoogleCallback.Page) :
  let out := api (GoogleCallback.callback_request code) in
  let before := store (GoogleCallback.auth p) in
  let after :=
    store (GoogleCallback.auth
             (snd (GoogleCallback.handleCallback storage api extract code p))) in
  (signs_in out = None ->
   GoogleCallback.auth (snd (GoogleCallback.handleCallback storage api extract code p))
   = GoogleCallback.auth p) /\
  (forall t f, signs_in out = Some (t, f) ->
   t <> "" /\
   accessToken after = Some t /\ isAuthenticated after = true /\ error after = None /\
   user after = match GoogleCallback.f_user f, extract t with
                | Some u, _ => Some u
                | None, Some u => Some u
                | None, None => user before
                end).
Proof.
  cbv zeta. unfold signs_in. unfold_callback.
  destruct (api (GoogleCallback.callback_request code)) as [e | r]; cbn;
    [split; [reflexivity | intros t f H; discriminate H] |].
  destruct (GoogleCallback.ok r) eqn:Hok; cbn.
  2:{ split; [| intros t f H; discriminate H]. intros _.
      destruct (GoogleCallback.payload r) as [e | e | [| f]]; cbn; try reflexivity.
      destruct (truthy_opt (GoogleCallback.f_redirectUrl f)); reflexivity. }
  destruct (GoogleCallback.payload r) as [e | e | [| f]]; cbn;
    try (split; [reflexivity | intros t f' H; discriminate H]).
  rewrite orb_true_r.
  destruct (truthy_opt (or_else (GoogleCallback.f_accessToken f) (GoogleCallback.f_token f)))
    eqn:Htok; cbn.
  2:{ split; [reflexivity | intros t f' H; discriminate H]. }
  split; [discriminate |].
  intros t f' H. injection H as <- <-.
  assert (Hne : template (or_else (GoogleCallback.f_accessToken f) (GoogleCallback.f_token f))
                <> "").
  { destruct (or_else _ _) as [s |]; [| discriminate Htok].
    now apply AuthStoreFacts.truthy_nonempty. }
  split; [exact Hne |].
  apply AuthStoreFacts.truthy_nonempty in Hne.
  unfold PersistedStore.login, PersistedStore.setAccessToken, PersistedStore.set_,
    PersistedStore.setItem, set_, bind, AuthPersist.partialize.
  destruct (GoogleCallback.f_user f) as [u |]; cbn.
  - destruct (storage _ _); cbn; repeat split.
  - destruct (extract _) as [u |]; cbn.
    + destruct (storage _ _); cbn; repeat split.
    + rewrite Hne. destruct (storage _ _); cbn; repeat split.
Qed.

Lemma handleCallback_signs_in_witness :
  accessToken (store (GoogleCallback.auth
                        (snd (GoogleCallback.handleCallback PersistedStoreSpec.full
                                (fun _ => answer_token_only)
                                (fun _ => None) "code"
                                (GoogleCallback.opened AuthStoreSpec.signed_in)))))
  = Some "tok" /\
  user (store (GoogleCallback.auth
                 (snd (GoogleCallback.handleCallback PersistedStoreSpec.full
                         (fun _ => answer_token_only)
                         (fun _ => None) "code"
                         (GoogleCallback.opened AuthStoreSpec.signed_in)))))
  = Some AuthStoreSpec.sample_user.
Proof.
  destruct (proj2 (handleCallback_signs_in PersistedStoreSpec.full
                     (fun _ => answer_token_only) (fun _ => None) "code"
                     (GoogleCallback.opened AuthStoreSpec.signed_in))
              "tok" _ eq_refl) as (_ & Ht & _ & _ & Hu).
  split; [exact Ht | exact Hu].
Defined.

End CallersFacts.

(** * Properties of the token service *)

Module TokenServiceFacts.
Import Ascii Js JsString AuthStore Eff Server TokenService TokenServiceSpec.

(** ** Splitting, trimming *)

Lemma split_cons (sep : ascii) (s : string) :
  exists p ps, split sep s = p :: ps.
Proof.
  induction s as [| c s (p & ps & IH)]; cbn; [now eexists _, _ |].
  destruct (Ascii.eqb c sep); [now eexists _, _ |].
  rewrite IH. now eexists _, _.
Qed.

Lemma split_lacks (sep : ascii) (a : string) :
  lacks sep a = true -> split sep a = [a].
Proof.
  induction a as [| c a IH]; cbn; [reflexivity |].
  intros [Hc Ha]%andb_prop. apply negb_true_iff in Hc. rewrite Hc, (IH Ha). reflexivity.
Qed.

Lemma append_nil (s : string) : "" ++ s = s.
Proof. reflexivity. Qed.

Lemma append_cons (c : ascii) (a b : string) : String c a ++ b = String c (a ++ b).
Proof. reflexivity. Qed.

Lemma split_app (sep : ascii) (a b : string) :
  lacks sep a = true -> split sep (a ++ String sep b) = a :: split sep b.
Proof.
  induction a as [| c a IH]; rewrite ?append_nil, ?append_cons; cbn.
  - intros _. now rewrite Ascii.eqb_refl.
  - intros [Hc Ha]%andb_prop. apply negb_true_iff in Hc. rewrite Hc, (IH Ha). reflexivity.
Qed.

Lemma lacks_app (c : ascii) (a b : string) :
  lacks c (a ++ b) = lacks c a && lacks c b.
Proof.
  induction a as [| x a IH]; rewrite ?append_nil, ?append_cons; cbn; [reflexivity |].
  now rewrite IH, andb_assoc.
Qed.

Lemma no_space_app (a b : string) : no_space (a ++ b) = no_space a && no_space b.
Proof.
  induction a as [| x a IH]; rewrite ?append_nil, ?append_cons; cbn; [reflexivity |].
  now rewrite IH, andb_assoc.
Qed.

Lemma trimEnd_no_space (s : string) : no_space s = true -> trimEnd s = s.
Proof.
  induction s as [| c s IH]; cbn; [reflexivity |].
  intros [Hc Hs]%andb_prop. apply negb_true_iff in Hc. rewrite (IH Hs), Hc.
  now destruct s.
Qed.

Lemma trim_no_space (s : string) : no_space s = true -> trim s = s.
Proof.
  intros H. unfold trim.
  assert (Hs : trimStart s = s).
  { destruct s as [| c s]; cbn in *; [reflexivity |].
    apply andb_prop in H as [Hc _]. apply negb_true_iff in Hc. now rewrite Hc. }
  rewrite Hs. now apply trimEnd_no_space.
Qed.

Lemma trim_leading_space (s : string) : trim (String " " s) = trim s.
Proof. reflexivity. Qed.

(** The cookies of a header: its pieces between [;], trimmed. *)
Lemma cookies_leading_space (h : string) :
  map trim (split ";" (String " " h)) = map trim (split ";" h).
Proof.
  cbn. destruct (split_cons ";" h) as (p & ps & ->). reflexivity.
Qed.

Lemma cookies_join (c : string) (cs : list string) :
  lacks ";" c = true -> cs <> [] ->
  map trim (split ";" (join "; " (c :: cs)))
  = trim c :: map trim (split ";" (join "; " cs)).
Proof.
  intros Hc Hcs. destruct cs as [| c' cs]; [congruence |].
  change (join "; " (c :: c' :: cs)) with (c ++ String ";" (String " " (join "; " (c' :: cs)))).
  rewrite split_app by exact Hc. cbn [map]. now rewrite cookies_leading_space.
Qed.

Lemma refresh_cookie_text (v : string) :
  cookie_text v = true ->
  lacks ";" ("refresh_token=" ++ v) = true /\ trim ("refresh_token=" ++ v) = "refresh_token=" ++ v.
Proof.
  unfold cookie_text. intros [Hl Hn]%andb_prop. split.
  - rewrite lacks_app, Hl. reflexivity.
  - apply trim_no_space. rewrite no_space_app, Hn. reflexivity.
Qed.

Lemma startsWith_refresh_token (v : string) :
  startsWith ("refresh_token=" ++ v) "refresh_token=" = true.
Proof.
  unfold startsWith. cbn.
  repeat (destruct (Ascii.ascii_dec _ _) as [_ | Hne]; [| now destruct Hne]).
  destruct v; reflexivity.
Qed.

Lemma value_of_refresh_cookie (v : string) :
  nth_error (split "=" ("refresh_token=" ++ v)) 1 = Some (hd EmptyString (split "=" v)).
Proof.
  change ("refresh_token=" ++ v) with ("refresh_token" ++ String "=" v).
  rewrite split_app by reflexivity. cbn.
  now destruct (split_cons "=" v) as (p & ps & ->).
Qed.

(** The first cookie that starts with [refresh_token=] is the one read;
    what comes after it does not matter. *)
Lemma find_refresh_cookie (before after : list string) (v : string) :
  forallb other_cookie before = true ->
  cookie_text v = true ->
  List.find (fun cookie => startsWith cookie "refresh_token=")
    (map trim (split ";" (join "; " (before ++ ("refresh_token=" ++ v) :: after))))
  = Some ("refresh_token=" ++ v).
Proof.
  intros Hb Hv. destruct (refresh_cookie_text v Hv) as [Hl Ht].
  induction before as [| c before IH]; cbn [app].
  - destruct after as [| a after].
    + cbn [join]. rewrite split_lacks by exact Hl. cbn [map List.find].
      now rewrite Ht, startsWith_refresh_token.
    + rewrite cookies_join by (exact Hl || discriminate). cbn [List.find].
      now rewrite Ht, startsWith_refresh_token.
  - cbn [forallb] in Hb. apply andb_prop in Hb as [Hc Hb].
    unfold other_cookie in Hc. apply andb_prop in Hc as [Hc1 Hc2].
    apply negb_true_iff in Hc2.
    rewrite cookies_join by (exact Hc1 || now destruct before).
    cbn [List.find]. rewrite Hc2. now apply IH.
Qed.

Lemma join_nonempty (before after : list string) (v : string) :
  truthy (join "; " (before ++ ("refresh_token=" ++ v) :: after)) = true.
Proof.
  destruct before as [| c before]; cbn [app].
  - destruct after; reflexivity.
  - destruct (before ++ _)%list eqn:H; [now destruct before |].
    cbn [join]. destruct c; reflexivity.
Qed.

Lemma read_refresh_cookie (before after : list string) (v : string) :
  forallb other_cookie before = true ->
  cookie_text v = true ->
  getRefreshTokenFromCookie (Some (join "; " (before ++ ("refresh_token=" ++ v) :: after)))
  = read_value v.
Proof.
  intros Hb Hv. unfold getRefreshTokenFromCookie.
  cbn [truthy_opt template]. rewrite join_nonempty. cbn [negb].
  rewrite (find_refresh_cookie before after v Hb Hv), value_of_refresh_cookie.
  unfold read_value. cbn [truthy_opt]. now destruct (truthy _).
Qed.

(** X18. Reading the refresh token from a [Cookie] header. Without a
    header, or with an empty one, the result is [null]. With a header
    [c1; ...; refresh_token=v; ...], where no earlier cookie starts with
    [refresh_token=], the first such cookie is the one read and what
    follows it is ignored; the result is the part of [v] before its
    first [=] (so [v] itself when it holds none) and [null] when that
    part is empty. *)
Theorem getRefreshTokenFromCookie_reads (before after : list string) (v : string) :
  getRefreshTokenFromCookie None = None /\
  getRefreshTokenFromCookie (Some "") = None /\
  (forallb other_cookie before = true -> cookie_text v = true ->
   let header := join "; " (before ++ ("refresh_token=" ++ v) :: after) in
   getRefreshTokenFromCookie (Some header) = read_value v /\
   (lacks "=" v = true -> v <> "" -> getRefreshTokenFromCookie (Some header) = Some v)).
Proof.
  split; [reflexivity |]. split; [reflexivity |].
  intros Hb Hv. cbv zeta. rewrite (read_refresh_cookie before after v Hb Hv).
  split; [reflexivity |].
  intros Heq Hne. unfold read_value. rewrite split_lacks by exact Heq. cbn [hd].
  apply AuthStoreFacts.truthy_nonempty in Hne. now rewrite Hne.
Qed.

Lemma getRefreshTokenFromCookie_reads_witness :
  getRefreshTokenFromCookie (Some "sid=1; theme=dark; refresh_token=abc.def; refresh_token=zzz")
  = Some "abc.def" /\
  getRefreshTokenFromCookie (Some "refresh_token=abc==") = Some "abc".
Proof.
  split.
  - apply (getRefreshTokenFromCookie_reads ["sid=1"; "theme=dark"] ["refresh_token=zzz"]
             "abc.def"); [reflexivity | reflexivity | reflexivity | discriminate].
  - apply (getRefreshTokenFromCookie_reads [] [] "abc=="); reflexivity.
Defined.

(** ** Writing the cookie *)

Lemma strip_end_solid (s : string) : solid s = true -> Site.strip_end s = s.
Proof.
  induction s as [| c s IH]; [reflexivity |].
  cbn [solid Site.strip_end]. intros H. apply andb_prop in H as [Hc Hs].
  rewrite (IH Hs). apply negb_true_iff in Hc. rewrite Hc. destruct s; reflexivity.
Qed.

Lemma strip_end_app_keep (a b : string) :
  Site.strip_end b = b -> b <> "" -> Site.strip_end (a ++ b) = a ++ b.
Proof.
  intros Hb Hne. induction a as [| c a IH].
  - rewrite append_nil. exact Hb.
  - rewrite append_cons. cbn [Site.strip_end]. rewrite IH.
    destruct (a ++ b) eqn:Hab; [| reflexivity].
    destruct a; [rewrite append_nil in Hab; contradiction | rewrite append_cons in Hab];
      discriminate Hab.
Qed.

Lemma digits_solid (d : Decimal.uint) :
  solid (DecimalString.NilEmpty.string_of_uint d) = true.
Proof. induction d; cbn; auto. Qed.

Lemma number_solid (n : Z) :
  solid (number_to_string n) = true /\ number_to_string n <> "".
Proof.
  unfold number_to_string.
  destruct (Z.to_int n) as [d | d]; cbn [DecimalString.NilZero.string_of_int].
  - destruct d; cbn; try (split; [apply digits_solid | discriminate]).
    split; [reflexivity | discriminate].
  - split; [| discriminate]. cbn [solid].
    destruct d; cbn; try apply digits_solid. reflexivity.
Qed.

(** The cookie line is a normalized header value. *)
Lemma cookie_line_normal (env : Env) (t : string) (n : Z) :
  Site.normalize (cookie_line env t n) = cookie_line env t n.
Proof.
  destruct (number_solid n) as [Hsolid Hne].
  assert (Hage : Site.strip_end ("Max-Age=" ++ number_to_string n)
                 = "Max-Age=" ++ number_to_string n).
  { apply strip_end_app_keep; [now apply strip_end_solid | exact Hne]. }
  assert (Hnonempty : forall c a b, String c a ++ b <> "").
  { intros c a b. rewrite append_cons. discriminate. }
  unfold Site.normalize, cookie_line. cbv zeta.
  destruct (is_string (NODE_ENV env) "production"); cbn [List.app join];
    rewrite !append_cons; cbn [Site.strip_start Site.http_space];
    rewrite <- !append_cons;
    repeat (apply strip_end_app_keep; [| apply Hnonempty]);
    exact Hage.
Qed.

Lemma setRefreshTokenCookie_run (valid_header : string -> bool) (header_error : Thrown)
    (env : Env) (ref : nat) (t : string) (maxAge : option Z) (s : Service) :
  let n := match maxAge with Some n => n | None => thirty_days end in
  setRefreshTokenCookie valid_header header_error env ref t maxAge s
  = if valid_header (cookie_line env t n) then
      (Returned ref,
       {| heap := alter (with_cookie env t n) ref (heap s);
          next_ref := next_ref s;
          printed := (printed s
                      ++ [(GoogleCallback.Log,
                           "[TokenService] Refresh Token을 HttpOnly 쿠키에 저장 완료")])%list |})
    else (Threw header_error, s).
Proof.
  cbv zeta.
  transitivity
    (ebind (headers_set valid_header header_error ref "Set-Cookie"
              (cookie_line env t match maxAge with Some n => n | None => thirty_days end))
       (fun _ =>
          ebind (print GoogleCallback.Log
                   "[TokenService] Refresh Token을 HttpOnly 쿠키에 저장 완료")
            (fun _ => eret ref)) s).
  { unfold setRefreshTokenCookie, cookie_line.
    destruct (is_string (NODE_ENV env) "production"); destruct maxAge; reflexivity. }
  unfold headers_set, with_cookie, ebind, eret, ethrow, update, print.
  rewrite cookie_line_normal.
  destruct (valid_header _); reflexivity.
Qed.

(** X19. [setRefreshTokenCookie], for a whole number of seconds. When
    [Headers] accepts the cookie line, the call puts exactly that one
    [Set-Cookie] value on the response it is given, replacing any the
    response had, and returns that response: [refresh_token=<token>] with
    [HttpOnly], [SameSite=Strict], [Path=/] and [Max-Age] (30 days unless
    given), and with [Secure] exactly when [NODE_ENV] is [production];
    no other response is touched; read as a cookie header, the line gives
    back the token (up to its first [=]). When [Headers] does not accept
    the line, the call throws and nothing is changed. *)
Theorem setRefreshTokenCookie_writes (valid_header : string -> bool)
    (header_error : Thrown) (env : Env) (ref : nat) (t : string)
    (maxAge : option Z) (s : Service) (r : NextResponse) :
  let n := match maxAge with Some n => n | None => 30 * 24 * 60 * 60 end in
  let pair := "refresh_token=" ++ t in
  let age := "Max-Age=" ++ number_to_string n in
  let line :=
    join "; "
      (pair :: "HttpOnly" ::
       List.app (if is_string (NODE_ENV env) "production" then ["Secure"] else [])
                ["SameSite=Strict"; "Path=/"; age]) in
  let call := setRefreshTokenCookie valid_header header_error env ref t maxAge s in
  heap s !! ref = Some r ->
  safe_integer n = true ->
  (valid_header line = true ->
   fst call = Returned ref /\
   (exists r', heap (snd call) !! ref = Some r' /\
               res_headers r' !! "set-cookie" = Some [line] /\
               (forall name, name <> "set-cookie" ->
                             res_headers r' !! name = res_headers r !! name) /\
               res_status r' = res_status r /\ res_body r' = res_body r) /\
   (forall other, other <> ref -> heap (snd call) !! other = heap s !! other) /\
   (cookie_text t = true -> getRefreshTokenFromCookie (Some line) = read_value t)) /\
  (valid_header line = false -> call = (Threw header_error, s)).
Proof.
  cbv zeta. intros Hr _. rewrite setRefreshTokenCookie_run. cbv zeta.
  set (n := match maxAge with Some n => n | None => thirty_days end).
  split; intros Hvalid;
    [ change (valid_header (cookie_line env t n) = true) in Hvalid
    | change (valid_header (cookie_line env t n) = false) in Hvalid ];
    rewrite Hvalid; [| reflexivity].
  cbn [fst snd heap].
  split; [reflexivity |]. split; [| split].
  - eexists. split; [rewrite lookup_alter_eq, Hr; reflexivity |].
    unfold with_cookie, set_header, cookie_line. cbn [res_headers res_status res_body].
    change (Site.toLowerCase "Set-Cookie") with "set-cookie".
    split; [apply lookup_insert_eq |].
    split; [| split; reflexivity].
    intros name Hname. now rewrite lookup_insert_ne.
  - intros other Hother. now rewrite lookup_alter_ne.
  - intros Ht.
    apply (read_refresh_cookie [] _ t); [reflexivity | exact Ht].
Qed.

Lemma setRefreshTokenCookie_writes_witness :
  (exists r',
     heap (snd (setRefreshTokenCookie ServerSpec.printable ServerSpec.header_rejected
                  ServerSpec.production 0 "abc.def" None one_response)) !! 0%nat
     = Some r' /\
     res_headers r' !! "set-cookie"
     = Some ["refresh_token=abc.def; HttpOnly; Secure; SameSite=Strict; Path=/; Max-Age=2592000"]) /\
  setRefreshTokenCookie ServerSpec.printable ServerSpec.header_rejected
    ServerSpec.production 0 (String "010" "abc") None one_response
  = (Threw ServerSpec.header_rejected, one_response).
Proof.
  split.
  - destruct (proj1 (setRefreshTokenCookie_writes ServerSpec.printable
                       ServerSpec.header_rejected ServerSpec.production 0 "abc.def" None
                       one_response
                       {| res_status := 200; res_headers := ∅; res_body := "{}" |}
                       eq_refl eq_refl) eq_refl)
      as (_ & (r' & Hr' & Hline & _) & _).
    exists r'. split; [exact Hr' | exact Hline].
  - apply (proj2 (setRefreshTokenCookie_writes ServerSpec.printable
                    ServerSpec.header_rejected ServerSpec.production 0
                    (String "010" "abc") None one_response
                    {| res_status := 200; res_headers := ∅; res_body := "{}" |}
                    eq_refl eq_refl)).
    reflexivity.
Defined.

(** X20. [handleLoginSuccess], for a whole number of seconds. Without a
    refresh token ([null], undefined or empty) it changes no response and
    returns the one it was given. With one it writes the cookie on that
    response, with the given [maxAge], or 30 days when none is given or
    it is 0; if [Headers] does not accept the cookie line, the call
    throws there and changes nothing. After the cookie is written, if a
    [redirectUrl] is given, what the call returns is a new redirect
    response, not the response that carries the cookie. *)
Theorem handleLoginSuccess_result (valid_header : string -> bool)
    (header_error : Thrown) (env : Env)
    (redirect_response : string -> Thrown + NextResponse)
    (ref : nat) (refreshToken : option string) (options : option LoginOptions)
    (s : Service) (r : NextResponse) :
  let call :=
    handleLoginSuccess valid_header header_error env redirect_response ref
      refreshToken options s in
  let maxAge := match options with Some o => opt_maxAge o | None => None end in
  let redirectUrl := match options with Some o => opt_redirectUrl o | None => None end in
  let n := match maxAge with Some 0 | None => 2592000 | Some m => m end in
  heap s !! ref = Some r ->
  (ref < next_ref s)%nat ->
  safe_integer n = true ->
  (truthy_opt refreshToken = false ->
   fst call = Returned ref /\ heap (snd call) = heap s) /\
  (forall t, refreshToken = Some t -> t <> "" ->
   (valid_header (cookie_line env t n) = false -> call = (Threw header_error, s)) /\
   (valid_header (cookie_line env t n) = true ->
    heap (snd call) !! ref = Some (with_cookie env t n r) /\
    (truthy_opt redirectUrl = false -> fst call = Returned ref) /\
    (forall url fresh,
       redirectUrl = Some url -> url <> "" -> redirect_response url = inr fresh ->
       exists ref', fst call = Returned ref' /\ ref' <> ref /\
                    heap (snd call) !! ref' = Some fresh))).
Proof.
  cbv zeta. intros Hr Hlt _. unfold handleLoginSuccess. split.
  - intros ->. cbn. split; reflexivity.
  - intros t -> Ht. apply AuthStoreFacts.truthy_nonempty in Ht.
    cbn [truthy_opt template negb]. rewrite Ht. cbn [negb].
    unfold ebind. rewrite setRefreshTokenCookie_run. cbv zeta.
    assert (Hn : number_or match options with Some o => opt_maxAge o | None => None end
                           (30 * 24 * 60 * 60)
                 = match match options with Some o => opt_maxAge o | None => None end with
                   | Some 0 | None => 2592000
                   | Some m => m
                   end).
    { destruct options as [[[[| m | m] |] u] |]; reflexivity. }
    rewrite Hn.
    split; intros Hvalid; rewrite Hvalid; [reflexivity |].
    destruct (truthy_opt match options with Some o => opt_redirectUrl o | None => None end)
      eqn:Hurl.
    + unfold NextResponse_redirect. cbn [heap next_ref printed].
      destruct (redirect_response _) as [e | fresh0] eqn:Hred; cbn [fst snd heap].
      * split; [rewrite lookup_alter_eq, Hr; reflexivity |].
        split; [discriminate |].
        intros url fresh Hu _ Hf. rewrite Hu in Hred. cbn in Hred. congruence.
      * split; [rewrite lookup_insert_ne by lia; rewrite lookup_alter_eq, Hr; reflexivity |].
        split; [discriminate |].
        intros url fresh Hu _ Hf. rewrite Hu in Hred. cbn in Hred.
        exists (next_ref s). split; [reflexivity |]. split; [lia |].
        rewrite lookup_insert_eq. congruence.
    + cbn [eret fst snd heap].
      split; [rewrite lookup_alter_eq, Hr; reflexivity |].
      split; [reflexivity |].
      intros url fresh Hu Hne _. rewrite Hu in Hurl. cbn in Hurl.
      apply AuthStoreFacts.truthy_nonempty in Hne. congruence.
Qed.

Lemma handleLoginSuccess_result_witness :
  heap (snd (handleLoginSuccess ServerSpec.printable ServerSpec.header_rejected
               development (fun _ => inl OtherValue) 0 (Some "abc")
               (Some {| opt_maxAge := Some 0; opt_redirectUrl := None |}) one_response))
    !! 0%nat
  = Some (with_cookie development "abc" 2592000
            {| res_status := 200; res_headers := ∅; res_body := "{}" |}).
Proof.
  apply (proj2 (proj2 (handleLoginSuccess_result ServerSpec.printable
                         ServerSpec.header_rejected development
                         (fun _ => inl OtherValue) 0 (Some "abc")
                         (Some {| opt_maxAge := Some 0; opt_redirectUrl := None |})
                         one_response
                         {| res_status := 200; res_headers := ∅; res_body := "{}" |}
                         eq_refl (Nat.lt_0_succ 0) eq_refl) "abc" eq_refl
                      ltac:(discriminate)) eq_refl).
Defined.

(** X21. [getApiUrl] never returns an empty address: it returns
    [NEXT_PUBLIC_API_URL] when that is set and not empty, the fixed
    development address when it is not and [NODE_ENV] is [development],
    and throws in every other case. *)
Theorem getApiUrl_result (env : Env) :
  (forall url, getApiUrl env = Returned url -> url <> "") /\
  (truthy_opt (NEXT_PUBLIC_API_URL env) = true ->
   getApiUrl env = Returned (template (NEXT_PUBLIC_API_URL env))) /\
  (truthy_opt (NEXT_PUBLIC_API_URL env) = false ->
   (NODE_ENV env = Some "development" -> getApiUrl env = Returned "api.minsol.kr") /\
   (NODE_ENV env <> Some "development" -> exists e, getApiUrl env = Threw e)).
Proof.
  unfold getApiUrl. destruct (truthy_opt (NEXT_PUBLIC_API_URL env)) eqn:Hurl; cbn [negb].
  - split; [| split; [reflexivity | discriminate]].
    intros url [= <-]. destruct (NEXT_PUBLIC_API_URL env) as [u |]; [| discriminate].
    now apply AuthStoreFacts.truthy_nonempty.
  - split; [| split; [discriminate |]].
    + intros url. destruct (is_string _ _); [intros [= <-]; discriminate | discriminate].
    + intros _. split.
      * intros ->. reflexivity.
      * intros Hdev. unfold is_string. destruct (NODE_ENV env) as [m |]; [| eexists; reflexivity].
        destruct (String.eqb_spec m "development") as [-> | Hm]; [congruence |].
        eexists; reflexivity.
Qed.

Lemma getApiUrl_result_witness :
  getApiUrl development = Returned "api.minsol.kr" /\
  exists e, getApiUrl {| NEXT_PUBLIC_API_URL := Some ""; API_URL := None;
                         NODE_ENV := Some "production" |} = Threw e.
Proof.
  split.
  - apply (getApiUrl_result development); reflexivity.
  - apply (getApiUrl_result {| NEXT_PUBLIC_API_URL := Some ""; API_URL := None;
                               NODE_ENV := Some "production" |});
      [reflexivity | discriminate].
Defined.

End TokenServiceFacts.

(** * Properties of the auth-url proxy route *)

Module AuthUrlProxyFacts.
Import Ascii Js JsString Server AuthUrlProxy AuthUrlProxySpec.

Ltac unfold_proxy :=
  unfold pbind, ptry, pret, praise, pcall, fetch, sleep, warn, set_timeout, reply, view.

(** The loop, run from the start of the call. *)
Lemma attempts_run (backend : nat -> Attempt) (req : ProxyUpstream) :
  attempts backend req 3 0 None
    {| requests := []; slept := []; timeout_pending := true; warnings := 0 |}
  = (loop_end (backend (tries backend - 1)%nat), looped backend req (tries backend)).
Proof.
  unfold tries, looped, stops. cbn [attempts]. unfold_proxy. cbn.
  destruct (backend 0%nat) as [e0 | r0] eqn:H0; cbn.
  - destruct (backend 1%nat) as [e1 | r1] eqn:H1; cbn.
    + destruct (backend 2%nat) as [e2 | r2] eqn:H2; cbn; [rewrite ?H0, ?H1, ?H2; reflexivity |].
      destruct (br_ok r2 || _); rewrite ?H0, ?H1, ?H2; reflexivity.
    + destruct (br_ok r1 || _); cbn; [rewrite ?H0, ?H1, ?H2; reflexivity |].
      destruct (backend 2%nat) as [e2 | r2] eqn:H2; cbn; [rewrite ?H0, ?H1, ?H2; reflexivity |].
      destruct (br_ok r2 || _); rewrite ?H0, ?H1, ?H2; reflexivity.
  - destruct (br_ok r0 || _); cbn; [rewrite ?H0, ?H1, ?H2; reflexivity |].
    destruct (backend 1%nat) as [e1 | r1] eqn:H1; cbn.
    + destruct (backend 2%nat) as [e2 | r2] eqn:H2; cbn; [rewrite ?H0, ?H1, ?H2; reflexivity |].
      destruct (br_ok r2 || _); rewrite ?H0, ?H1, ?H2; reflexivity.
    + destruct (br_ok r1 || _); cbn; [rewrite ?H0, ?H1, ?H2; reflexivity |].
      destruct (backend 2%nat) as [e2 | r2] eqn:H2; cbn; [rewrite ?H0, ?H1, ?H2; reflexivity |].
      destruct (br_ok r2 || _); rewrite ?H0, ?H1, ?H2; reflexivity.
Qed.

Lemma body_read (request : ProxyRequest) (s : Run) :
  ptry
    (let contentType := pr_content_type request in
     if truthy_opt contentType && includes (template contentType) "application/json" then
       pbind (pcall (pr_text request))
         (fun text => if truthy text then pcall (pr_parse request text) else pret empty_object)
     else pret empty_object)
    (fun e => pret empty_object) s
  = (Done (forwarded_body request), s).
Proof.
  unfold forwarded_body. unfold ptry, pbind, pcall. cbv zeta.
  destruct (truthy_opt _ && includes _ _); [| reflexivity].
  destruct (pr_text request) as [e | text]; [reflexivity |].
  cbn. destruct (truthy text); [| reflexivity].
  destruct (pr_parse request text); reflexivity.
Qed.

(** The state in which every call ends. *)
Definition finished (backend : nat -> Attempt) (req : ProxyUpstream) : Run :=
  {| requests := map (fun i => (req, backend i)) (seq 0 (tries backend));
     slept := firstn (tries backend - 1) [1000; 2000];
     timeout_pending := false;
     warnings := (tries backend - 1)%nat |}.

Local Arguments no_body_status : simpl never.
Local Arguments includes : simpl never.
Local Arguments startsWith : simpl never.
Local Arguments String.eqb : simpl never.
Local Arguments truthy : simpl never.
Local Arguments br_ok : simpl never.
Local Arguments Z.eqb : simpl never.

Ltac known_statuses :=
  try change (no_body_status 200) with false;
  try change (no_body_status 500) with false;
  try change (no_body_status 503) with false;
  try change (no_body_status 504) with false.

Ltac split_if :=
  cbn; unfold_proxy; cbn; known_statuses; cbv iota;
  match goal with
  | |- context [if ?b then _ else _] => destruct b eqn:?
  | |- context [match ?x with inl _ => _ | inr _ => _ end] => destruct x eqn:?
  end.

Ltac split_ifs := repeat split_if; cbn; known_statuses; cbv iota.

(** A common start of the proofs about [POST]: the request body is
    read, the loop has run. *)
Ltac enter_POST env request :=
  unfold POST; cbv zeta; unfold ptry at 1; unfold pbind at 1;
  rewrite body_read; fold (upstream_request env (forwarded_body request));
  unfold pbind at 1; unfold set_timeout at 1; cbn [start requests slept warnings];
  unfold ptry at 1; unfold pbind at 1; rewrite attempts_run.

Ltac split_property :=
  match goal with
  | |- context [match ?p with Falsy => _ | StringValue _ => _ | Truthy => _ end] =>
      destruct p eqn:?
  end.

Ltac split_all := repeat first [split_if | split_property]; cbn; known_statuses; cbv iota.

(** Every call ends with a reply, in the state [finished]. *)
Lemma POST_ends (env : Env) (backend : nat -> Attempt) (invalid_status : Z -> Raised)
    (not_a_function : string) (request : ProxyRequest) :
  exists answer,
    POST env backend invalid_status not_a_function request start
    = (Done answer, finished backend (upstream_request env (forwarded_body request))).
Proof.
  enter_POST env request.
  unfold finished, looped, substring, or_property, truthy_property.
  destruct (backend (tries backend - 1)%nat) as [e | r]; cbn [loop_end];
    split_all; eexists; reflexivity.
Qed.

(** X22. The retry loop of the proxy. The route sends the backend
    between one and three requests, all the same: it tries again only
    after a failed request or an answer 502 or 503, sleeps one second
    before the second and two before the third, and always clears its
    30 second timeout before it replies. *)
Theorem proxy_retries (env : Env) (backend : nat -> Attempt)
    (invalid_status : Z -> Raised) (not_a_function : string) (request : ProxyRequest) :
  let req := upstream_request env (forwarded_body request) in
  let s := snd (POST env backend invalid_status not_a_function request start) in
  let k := length (requests s) in
  requests s = map (fun i => (req, backend i)) (seq 0 k) /\
  (1 <= k <= 3)%nat /\
  (k = 1%nat <-> stops (backend 0%nat) = true) /\
  (k = 3%nat <-> stops (backend 0%nat) = false /\ stops (backend 1%nat) = false) /\
  slept s = firstn (k - 1) [1000; 2000] /\
  timeout_pending s = false.
Proof.
  cbv zeta.
  destruct (POST_ends env backend invalid_status not_a_function request) as [answer ->].
  cbn [snd finished requests slept timeout_pending].
  rewrite length_map, length_seq. unfold tries.
  destruct (stops (backend 0%nat)); [| destruct (stops (backend 1%nat))];
    repeat split; try reflexivity; try lia; try discriminate;
    intros; try lia; try (destruct H; discriminate).
Qed.

(** X23. The proxy always replies and never with 502. Whatever the
    request and whatever the backend does, the handler returns a
    response; its status is never 502 (a 502 of the backend is answered
    as 503) and its [error] is never ["Bad Gateway"]. *)
Theorem proxy_never_502 (env : Env) (backend : nat -> Attempt)
    (invalid_status : Z -> Raised) (not_a_function : string) (request : ProxyRequest) :
  exists answer,
    fst (POST env backend invalid_status not_a_function request start) = Done answer /\
    pp_status answer <> 502 /\
    (forall message status, pp_body answer <> Failure "Bad Gateway" message status).
Proof.
  enter_POST env request.
  unfold substring, or_property, truthy_property.
  destruct (backend (tries backend - 1)%nat) as [e | r]; cbn [loop_end];
    split_all; eexists; (split; [reflexivity |]); cbn;
    (split; [| intros; try discriminate]);
    repeat match goal with
      | H : (_ =? _) = true |- _ => apply Z.eqb_eq in H
      | H : (_ =? _) = false |- _ => apply Z.eqb_neq in H
      end; try lia; try congruence.
Qed.

(** The [errorText] of a failure, as the route computes it. *)
Lemma error_text_run (r : BackendReply) (s : Run) :
  ptry
    (let contentType := br_content_type r in
     if truthy_opt contentType && includes (template contentType) "application/json" then
       pbind (pcall (br_json r))
         (fun errorData =>
            pbind (view errorData)
              (fun errorData =>
                 pret (or_property (or_property (v_message errorData) (v_error errorData))
                                   (StringValue (v_stringified errorData)))))
     else
       let errorText := match br_text r with inl _ => "" | inr t => t end in
       if includes errorText "<html>" || includes errorText "502" then
         pret (StringValue unavailable)
       else pret (StringValue errorText))
    (fun e => pret (StringValue (backend_error (br_status r)))) s
  = (Done (error_text r), s).
Proof.
  unfold error_text. unfold_proxy. cbv zeta.
  destruct (truthy_opt _ && includes _ _).
  - destruct (br_json r) as [e | d]; [reflexivity |]. cbn.
    destruct (is_null d); reflexivity.
  - destruct (includes _ _ || includes _ _); reflexivity.
Qed.

(** The answer to a failure of the backend. *)
Lemma POST_failure (env : Env) (backend : nat -> Attempt) (invalid_status : Z -> Raised)
    (not_a_function : string) (request : ProxyRequest) (r : BackendReply) :
  backend (tries backend - 1)%nat = Answered r ->
  br_ok r = false ->
  no_body_status (br_status r) = false ->
  fst (POST env backend invalid_status not_a_function request start)
  = Done match error_text r with
         | StringValue text =>
             {| pp_status := if br_status r =? 502 then 503 else br_status r;
                pp_body := Failure ("Backend error: "
                                    ++ TokenService.number_to_string (br_status r))
                                   (if truthy text then text
                                    else backend_error (br_status r))
                                   (Some (br_status r)) |}
         | _ => caught env (RaisedError "TypeError" not_a_function)
         end.
Proof.
  intros Hlast Hok Hstatus.
  assert (Hcode : no_body_status (if br_status r =? 502 then 503 else br_status r) = false).
  { destruct (br_status r =? 502); [reflexivity | exact Hstatus]. }
  assert (Hnot : forall c : Z, ((if c =? 502 then 503 else c) =? 502) = false).
  { intros c. destruct (c =? 502) eqn:Hc; [reflexivity | exact Hc]. }
  enter_POST env request. rewrite Hlast. cbn [loop_end].
  unfold pbind at 1. unfold pret at 1. unfold pbind at 1. unfold set_timeout at 1.
  cbn [negb]. rewrite Hok. cbn [negb]. unfold pbind at 1.
  rewrite error_text_run.
  destruct (error_text r) as [| text |]; unfold substring.
  - unfold caught, pbind, praise, set_timeout, is_error, name_or, raised_message_or, reply.
    cbn. change (String.eqb "TypeError" "AbortError") with false. cbn.
    change (String.eqb "TypeError" "TypeError") with true. cbn [andb].
    known_statuses. destruct (includes not_a_function "fetch"); reflexivity.
  - unfold pbind, pret, reply. rewrite Hcode, Hnot. reflexivity.
  - unfold caught, pbind, praise, set_timeout, is_error, name_or, raised_message_or, reply.
    cbn. change (String.eqb "TypeError" "AbortError") with false. cbn.
    change (String.eqb "TypeError" "TypeError") with true. cbn [andb].
    known_statuses. destruct (includes not_a_function "fetch"); reflexivity.
Qed.

(** X24. What the proxy answers, by the last attempt of the loop. A
    success of the backend with a readable body is forwarded with status
    200. A failure of the backend whose error text is a string is
    answered with the backend's status, 502 turned into 503, with the
    error ["Backend error: <status>"] and a message that is never empty;
    when the error text is not a string (a JSON error body whose
    [message], or else [error], is a number, [true], an object or an
    array), logging it throws and the answer is the one of the outer
    [catch] block, 500 or 503, which no longer carries the backend's
    status. And when the last attempt was aborted by the timeout, which
    only a third attempt can be, the answer is 504. Status numbers are
    whole numbers that a response can carry. *)
Theorem proxy_answers (env : Env) (backend : nat -> Attempt)
    (invalid_status : Z -> Raised) (not_a_function : string) (request : ProxyRequest) :
  let last := backend (tries backend - 1)%nat in
  let answer := fst (POST env backend invalid_status not_a_function request start) in
  (forall r d,
     last = Answered r -> br_ok r = true -> br_json r = inr d ->
     answer = Done {| pp_status := 200; pp_body := Forwarded d |}) /\
  (forall r,
     last = Answered r -> br_ok r = false -> no_body_status (br_status r) = false ->
     (forall text,
        error_text r = StringValue text ->
        exists message,
          message <> "" /\
          answer = Done {| pp_status := if br_status r =? 502 then 503 else br_status r;
                           pp_body := Failure ("Backend error: "
                                               ++ TokenService.number_to_string (br_status r))
                                              message (Some (br_status r)) |}) /\
     ((forall text, error_text r <> StringValue text) ->
      answer = Done (caught env (RaisedError "TypeError" not_a_function)))) /\
  (forall m,
     last = Failed (RaisedError "AbortError" m) ->
     tries backend = 3%nat /\
     answer = Done {| pp_status := 504;
                      pp_body := Failure "요청 타임아웃"
                                         "백엔드 서버 응답 시간이 초과되었습니다." None |}).
Proof.
  cbv zeta.
  split; [intros r d Hlast Hok Hjson | split; [intros r Hlast Hok Hstatus | intros m Hlast]].
  - enter_POST env request.
    rewrite Hlast. cbn [loop_end]. unfold_proxy. cbn.
    rewrite Hok, Hjson. reflexivity.
  - rewrite (POST_failure env backend invalid_status not_a_function request r
               Hlast Hok Hstatus).
    split.
    + intros text ->. eexists. split; [| reflexivity].
      destruct (truthy text) eqn:Ht; [now apply AuthStoreFacts.truthy_nonempty |].
      unfold backend_error. intros H. discriminate H.
    + intros Hnot_text.
      destruct (error_text r) as [| text |];
        [reflexivity | now destruct (Hnot_text text) | reflexivity].
  - enter_POST env request. split.
    + unfold tries in *.
      destruct (stops (backend 0%nat)) eqn:H0; cbn in Hlast;
        [rewrite Hlast in H0; discriminate H0 |].
      destruct (stops (backend 1%nat)) eqn:H1; cbn in Hlast;
        [rewrite Hlast in H1; discriminate H1 | reflexivity].
    + rewrite Hlast. cbn [loop_end]. unfold_proxy. cbn. reflexivity.
Qed.

Lemma proxy_answers_witness :
  (exists message,
     message <> "" /\
     fst (POST ServerSpec.production always_502 range_error no_substring plain_request start)
     = Done {| pp_status := 503;
               pp_body := Failure "Backend error: 502" message (Some 502) |}) /\
  fst (POST ServerSpec.production (fun _ => Answered coded_failure) range_error
         no_substring plain_request start)
  = Done {| pp_status := 500;
            pp_body := Failure "서버 오류" "errorText.substring is not a function" None |} /\
  fst (POST ServerSpec.production timed_out range_error no_substring plain_request start)
  = Done {| pp_status := 504;
            pp_body := Failure "요청 타임아웃"
                               "백엔드 서버 응답 시간이 초과되었습니다." None |}.
Proof.
  split; [| split].
  - apply (proj1 (proj1 (proj2 (proxy_answers ServerSpec.production always_502 range_error
                                  no_substring plain_request))
                        gateway_down eq_refl eq_refl eq_refl) unavailable).
    reflexivity.
  - apply (proj2 (proj1 (proj2 (proxy_answers ServerSpec.production
                                  (fun _ => Answered coded_failure) range_error
                                  no_substring plain_request))
                        coded_failure eq_refl eq_refl eq_refl)).
    intros text H. discriminate H.
  - apply (proj2 (proj2 (proxy_answers ServerSpec.production timed_out range_error
                           no_substring plain_request)) "This operation was aborted").
    reflexivity.
Defined.

End AuthUrlProxyFacts.
